(** * APM32S10x SPI register driver (apm32s10x_spi.c)

    A shallow embedding of the StdPeriph SPI driver.  Every driver function
    is a computation in a small state monad over the two memory-mapped
    register blocks; each volatile load and store is also recorded in an
    access trace, because some of the hardware's clearing protocols are
    sequences of register reads and not values. *)

From Stdlib Require Import ZArith List Bool Lia.
Import ListNotations.
Local Open Scope Z_scope.

(** ** Fixed-width integers *)

Definition uint16_t (v : Z) : Z := v mod 2 ^ 16.
Definition uint32_t (v : Z) : Z := v mod 2 ^ 32.

(** [fits n v]: [v] is an unsigned [n]-bit value. *)
Definition fits (n v : Z) : Prop := 0 <= v < 2 ^ n.

(** A one-bit bit-field assignment [reg_B.FIELD = x]: the value is truncated
    to its lowest bit and put at position [pos] of the containing word. *)
Definition assign_bit (pos x word : Z) : Z :=
  if Z.odd x then Z.setbit word pos else Z.clearbit word pos.

(** ** The device headers

    apm32s10x.h and apm32s10x_spi.h are not part of the translated sources, so
    what the driver takes from them is a parameter of the development: the
    width of a register, the position of each bit-field the driver names, and
    the value of each enumerator it names. *)
Class SPI_Header : Type := {
  reg_bits : Z;                       (* width of an __IOM register word *)
  (* CTRL1_B *)
  SPIEN_Pos : Z;
  (* CTRL2_B *)
  RXDEN_Pos : Z;
  TXDEN_Pos : Z;
  (* STS_B *)
  CRCEFLG_Pos : Z;
  (* SPI_DMA_REQ_T *)
  SPI_DMA_REQ_TX : Z;
  SPI_DMA_REQ_RX : Z;
  (* the enumerators SPI_ConfigStructInit stores *)
  SPI_DIRECTION_2LINES_FULLDUPLEX : Z;
  SPI_MODE_SLAVE : Z;
  SPI_DATA_LENGTH_8B : Z;
  SPI_CLKPOL_LOW : Z;
  SPI_CLKPHA_1EDGE : Z;
  SPI_NSS_HARD : Z;
  SPI_BAUDRATE_DIV_2 : Z;
  SPI_FIRSTBIT_MSB : Z;
  (* SPI_FLAG_T, the error flags *)
  SPI_FLAG_UDR : Z;
  SPI_FLAG_CRCE : Z;
  SPI_FLAG_ME : Z;
  SPI_FLAG_OVR : Z;
  (* SPI_INT_T, the error interrupts *)
  SPI_INT_OVR : Z;
  SPI_INT_CRCE : Z;
  SPI_INT_ME : Z;
  SPI_INT_UDR : Z
}.

(** What C guarantees of any such header: a register word has between 16 and
    32 bits, a bit-field lies inside its word, two bit-fields of one word are
    different bits, two enumerators of the DMA request type differ. *)
Record header_ok (h : SPI_Header) : Prop := {
  reg_bits_range : 16 <= reg_bits <= 32;
  SPIEN_range : 0 <= SPIEN_Pos < reg_bits;
  RXDEN_range : 0 <= RXDEN_Pos < reg_bits;
  TXDEN_range : 0 <= TXDEN_Pos < reg_bits;
  CRCEFLG_range : 0 <= CRCEFLG_Pos < reg_bits;
  TXDEN_RXDEN : TXDEN_Pos <> RXDEN_Pos;
  DMA_REQ_TX_RX : SPI_DMA_REQ_TX <> SPI_DMA_REQ_RX
}.

(** A concrete header, used by the examples only: the layout of the APM32 SPI
    block (32-bit registers; SPIEN is bit 6 of control-1, one of the three
    bits of the mask 0x3040 that SPI_Config keeps; an interrupt value carries
    its control-2 enable bit in its high byte and its status bit in its low
    byte).  No theorem depends on these values. *)
Definition apm32s10x : SPI_Header := {|
  reg_bits := 32;
  SPIEN_Pos := 6;
  RXDEN_Pos := 0;
  TXDEN_Pos := 1;
  CRCEFLG_Pos := 4;
  SPI_DMA_REQ_TX := 0x0002;
  SPI_DMA_REQ_RX := 0x0001;
  SPI_DIRECTION_2LINES_FULLDUPLEX := 0x0000;
  SPI_MODE_SLAVE := 0x0000;
  SPI_DATA_LENGTH_8B := 0x0000;
  SPI_CLKPOL_LOW := 0x0000;
  SPI_CLKPHA_1EDGE := 0x0000;
  SPI_NSS_HARD := 0x0000;
  SPI_BAUDRATE_DIV_2 := 0x0000;
  SPI_FIRSTBIT_MSB := 0x0000;
  SPI_FLAG_UDR := 0x0008;
  SPI_FLAG_CRCE := 0x0010;
  SPI_FLAG_ME := 0x0020;
  SPI_FLAG_OVR := 0x0040;
  SPI_INT_OVR := 0x2040;
  SPI_INT_CRCE := 0x2010;
  SPI_INT_ME := 0x2020;
  SPI_INT_UDR := 0x2008
|}.

(** Modelled from the spec: the device header apm32s10x.h, which declares the
    enumerations BIT_RESET/BIT_SET, DISABLE/ENABLE and RESET/SET, is missing;
    the spec reads them as "clear"/"set" of a bit and as false/true, that is
    0 and 1. *)
Definition BIT_RESET : Z := 0.
Definition BIT_SET : Z := 1.
Definition DISABLE : Z := 0.
Definition ENABLE : Z := 1.
Definition RESET : Z := 0.
Definition SET : Z := 1.

(** ** Register blocks *)

(** The registers of one SPI_T block that the driver touches. *)
Inductive Reg : Type := CTRL1 | CTRL2 | STS | DATA | CRCPOLY | RXCRC | TXCRC.

Record SPI_T : Type := mkSPI {
  ctrl1 : Z; ctrl2 : Z; sts : Z; data : Z; crcpoly : Z; rxcrc : Z; txcrc : Z
}.

Definition get_reg (r : Reg) (b : SPI_T) : Z :=
  match r with
  | CTRL1 => ctrl1 b | CTRL2 => ctrl2 b | STS => sts b | DATA => data b
  | CRCPOLY => crcpoly b | RXCRC => rxcrc b | TXCRC => txcrc b
  end.

Definition set_reg (r : Reg) (v : Z) (b : SPI_T) : SPI_T :=
  match r with
  | CTRL1 => mkSPI v (ctrl2 b) (sts b) (data b) (crcpoly b) (rxcrc b) (txcrc b)
  | CTRL2 => mkSPI (ctrl1 b) v (sts b) (data b) (crcpoly b) (rxcrc b) (txcrc b)
  | STS => mkSPI (ctrl1 b) (ctrl2 b) v (data b) (crcpoly b) (rxcrc b) (txcrc b)
  | DATA => mkSPI (ctrl1 b) (ctrl2 b) (sts b) v (crcpoly b) (rxcrc b) (txcrc b)
  | CRCPOLY => mkSPI (ctrl1 b) (ctrl2 b) (sts b) (data b) v (rxcrc b) (txcrc b)
  | RXCRC => mkSPI (ctrl1 b) (ctrl2 b) (sts b) (data b) (crcpoly b) v (txcrc b)
  | TXCRC => mkSPI (ctrl1 b) (ctrl2 b) (sts b) (data b) (crcpoly b) (rxcrc b) v
  end.

Definition Reg_eqb (r r' : Reg) : bool :=
  match r, r' with
  | CTRL1, CTRL1 | CTRL2, CTRL2 | STS, STS | DATA, DATA
  | CRCPOLY, CRCPOLY | RXCRC, RXCRC | TXCRC, TXCRC => true
  | _, _ => false
  end.

(** The peripheral instances: "The SPIx can be 1,2". *)
Inductive SPI_Periph : Type := SPI1 | SPI2.

Definition other (spi : SPI_Periph) : SPI_Periph :=
  match spi with SPI1 => SPI2 | SPI2 => SPI1 end.

Definition SPI_Periph_eqb (p q : SPI_Periph) : bool :=
  match p, q with SPI1, SPI1 | SPI2, SPI2 => true | _, _ => false end.

(** One volatile access to a register. *)
Inductive Access : Type :=
| Rd (spi : SPI_Periph) (r : Reg)
| Wr (spi : SPI_Periph) (r : Reg) (v : Z).

(** The machine: both register blocks, and the accesses made so far, oldest
    first. *)
Record World : Type := mkWorld {
  spi1 : SPI_T;
  spi2 : SPI_T;
  trace : list Access
}.

Definition block (spi : SPI_Periph) (w : World) : SPI_T :=
  match spi with SPI1 => spi1 w | SPI2 => spi2 w end.

Definition set_block (spi : SPI_Periph) (b : SPI_T) (w : World) : World :=
  match spi with
  | SPI1 => mkWorld b (spi2 w) (trace w)
  | SPI2 => mkWorld (spi1 w) b (trace w)
  end.

Definition log (a : Access) (w : World) : World :=
  mkWorld (spi1 w) (spi2 w) (trace w ++ [a]).

(** ** The state monad of driver code *)

Definition M (A : Type) : Type := World -> A * World.

Definition ret {A} (a : A) : M A := fun w => (a, w).

Definition bind {A B} (c : M A) (k : A -> M B) : M B :=
  fun w => let (a, w') := c w in k a w'.

Declare Scope drv_scope.
Delimit Scope drv_scope with drv.
Notation "x <- c ;; k" := (bind c (fun x => k))
  (at level 61, c at next level, right associativity) : drv_scope.
Notation "c ;; k" := (bind c (fun _ => k))
  (at level 61, right associativity) : drv_scope.

Definition exec {A} (c : M A) (w : World) : World := snd (c w).
Definition result {A} (c : M A) (w : World) : A := fst (c w).

(** The configuration structure SPI_Config_T; enumeration-typed members hold
    the enumerator's integer value, as in C. *)
Record SPI_Config_T : Type := mkConfig {
  direction : Z;
  mode : Z;
  length : Z;
  polarity : Z;
  phase : Z;
  nss : Z;
  baudrateDiv : Z;
  firstBit : Z;
  crcPolynomial : Z
}.

(** [c->member = v] for each member. *)
Definition set_direction (v : Z) (c : SPI_Config_T) : SPI_Config_T :=
  mkConfig v (mode c) (length c) (polarity c) (phase c) (nss c)
           (baudrateDiv c) (firstBit c) (crcPolynomial c).
Definition set_mode (v : Z) (c : SPI_Config_T) : SPI_Config_T :=
  mkConfig (direction c) v (length c) (polarity c) (phase c) (nss c)
           (baudrateDiv c) (firstBit c) (crcPolynomial c).
Definition set_length (v : Z) (c : SPI_Config_T) : SPI_Config_T :=
  mkConfig (direction c) (mode c) v (polarity c) (phase c) (nss c)
           (baudrateDiv c) (firstBit c) (crcPolynomial c).
Definition set_polarity (v : Z) (c : SPI_Config_T) : SPI_Config_T :=
  mkConfig (direction c) (mode c) (length c) v (phase c) (nss c)
           (baudrateDiv c) (firstBit c) (crcPolynomial c).
Definition set_phase (v : Z) (c : SPI_Config_T) : SPI_Config_T :=
  mkConfig (direction c) (mode c) (length c) (polarity c) v (nss c)
           (baudrateDiv c) (firstBit c) (crcPolynomial c).
Definition set_nss (v : Z) (c : SPI_Config_T) : SPI_Config_T :=
  mkConfig (direction c) (mode c) (length c) (polarity c) (phase c) v
           (baudrateDiv c) (firstBit c) (crcPolynomial c).
Definition set_baudrateDiv (v : Z) (c : SPI_Config_T) : SPI_Config_T :=
  mkConfig (direction c) (mode c) (length c) (polarity c) (phase c) (nss c)
           v (firstBit c) (crcPolynomial c).
Definition set_firstBit (v : Z) (c : SPI_Config_T) : SPI_Config_T :=
  mkConfig (direction c) (mode c) (length c) (polarity c) (phase c) (nss c)
           (baudrateDiv c) v (crcPolynomial c).
Definition set_crcPolynomial (v : Z) (c : SPI_Config_T) : SPI_Config_T :=
  mkConfig (direction c) (mode c) (length c) (polarity c) (phase c) (nss c)
           (baudrateDiv c) (firstBit c) v.

Section Driver.

Context {hdr : SPI_Header}.
Local Open Scope drv_scope.

(** A register holds an unsigned word of [reg_bits] bits. *)
Definition reg_word (v : Z) : Z := v mod 2 ^ reg_bits.

(** [spi->R] read as an rvalue. *)
Definition load (spi : SPI_Periph) (r : Reg) : M Z :=
  fun w => (get_reg r (block spi w), log (Rd spi r) w).

(** [spi->R = v]. *)
Definition store (spi : SPI_Periph) (r : Reg) (v : Z) : M unit :=
  fun w =>
    (tt, log (Wr spi r (reg_word v))
             (set_block spi (set_reg r (reg_word v) (block spi w)) w)).

(** [spi->R_B.FIELD = x] for a one-bit field: the compiler reads the word,
    replaces the bit, and writes the word back. *)
Definition store_bit (spi : SPI_Periph) (r : Reg) (pos x : Z) : M unit :=
  v <- load spi r ;;
  store spi r (assign_bit pos x v).

(** *** Configuration *)

Definition SPI_Config (spi : SPI_Periph) (spiConfig : SPI_Config_T) : M unit :=
  v <- load spi CTRL1 ;;
  store spi CTRL1 (Z.land v 0x3040) ;;
  v <- load spi CTRL1 ;;
  store spi CTRL1
    (Z.lor v
       (uint16_t
          (Z.lor (Z.lor (Z.lor (Z.lor (Z.lor (Z.lor (Z.lor
             (uint32_t (direction spiConfig)) (mode spiConfig))
             (length spiConfig)) (polarity spiConfig))
             (phase spiConfig)) (nss spiConfig))
             (baudrateDiv spiConfig)) (firstBit spiConfig)))) ;;
  store spi CRCPOLY (crcPolynomial spiConfig).

(** The structure behind the pointer is passed in and handed back. *)
Definition SPI_ConfigStructInit (spiConfig : SPI_Config_T) : M SPI_Config_T :=
  let spiConfig := set_direction SPI_DIRECTION_2LINES_FULLDUPLEX spiConfig in
  let spiConfig := set_mode SPI_MODE_SLAVE spiConfig in
  let spiConfig := set_length SPI_DATA_LENGTH_8B spiConfig in
  let spiConfig := set_polarity SPI_CLKPOL_LOW spiConfig in
  let spiConfig := set_phase SPI_CLKPHA_1EDGE spiConfig in
  let spiConfig := set_nss SPI_NSS_HARD spiConfig in
  let spiConfig := set_baudrateDiv SPI_BAUDRATE_DIV_2 spiConfig in
  let spiConfig := set_firstBit SPI_FIRSTBIT_MSB spiConfig in
  let spiConfig := set_crcPolynomial 7 spiConfig in
  ret spiConfig.

(** *** Lifecycle *)

Definition SPI_Enable (spi : SPI_Periph) : M unit :=
  store_bit spi CTRL1 SPIEN_Pos BIT_SET.

Definition SPI_Disable (spi : SPI_Periph) : M unit :=
  store_bit spi CTRL1 SPIEN_Pos BIT_RESET.

(** *** DMA requests *)

Definition SPI_EnableDMA (spi : SPI_Periph) (dmaReq : Z) : M unit :=
  if dmaReq =? SPI_DMA_REQ_TX
  then store_bit spi CTRL2 TXDEN_Pos ENABLE
  else store_bit spi CTRL2 RXDEN_Pos ENABLE.

Definition SPI_DisableDMA (spi : SPI_Periph) (dmaReq : Z) : M unit :=
  if dmaReq =? SPI_DMA_REQ_TX
  then store_bit spi CTRL2 TXDEN_Pos DISABLE
  else store_bit spi CTRL2 RXDEN_Pos DISABLE.

(** *** Data path *)

Definition SPI_TxData (spi : SPI_Periph) (data : Z) : M unit :=
  store spi DATA (uint16_t data).

Definition SPI_RxData (spi : SPI_Periph) : M Z :=
  v <- load spi DATA ;;
  ret (uint16_t v).

(** *** Interrupts and flags *)

Definition SPI_EnableInterrupt (spi : SPI_Periph) (interrupt : Z) : M unit :=
  v <- load spi CTRL2 ;;
  store spi CTRL2 (Z.lor v (Z.shiftr interrupt 8)).

Definition SPI_DisableInterrupt (spi : SPI_Periph) (interrupt : Z) : M unit :=
  v <- load spi CTRL2 ;;
  store spi CTRL2 (Z.land v (Z.lnot (Z.shiftr interrupt 8))).

Definition SPI_ReadStatusFlag (spi : SPI_Periph) (flag : Z) : M Z :=
  v <- load spi STS ;;
  if negb (Z.land v flag =? RESET) then ret SET else ret RESET.

Definition SPI_ClearStatusFlag (spi : SPI_Periph) (flag : Z) : M unit :=
  store_bit spi STS CRCEFLG_Pos BIT_RESET.

Definition SPI_ReadIntFlag (spi : SPI_Periph) (flag : Z) : M Z :=
  c2 <- load spi CTRL2 ;;
  let intEnable := uint32_t (Z.land c2 (Z.shiftr flag 8)) in
  s <- load spi STS ;;
  let intStatus := uint32_t (Z.land s flag) in
  if negb (intEnable =? 0) && negb (intStatus =? 0)
  then ret SET
  else ret RESET.

Definition SPI_ClearIntFlag (spi : SPI_Periph) (flag : Z) : M unit :=
  store_bit spi STS CRCEFLG_Pos BIT_RESET.

End Driver.

(** * Specification vocabulary *)

(** [frame spi rs w w']: from [w] to [w'] no register of instance [spi]
    outside [rs] changed, and the other instance did not change at all. *)
Definition frame (spi : SPI_Periph) (rs : list Reg) (w w' : World) : Prop :=
  (forall r, ~ In r rs -> get_reg r (block spi w') = get_reg r (block spi w))
  /\ block (other spi) w' = block (other spi) w.

(** Every register of both instances holds a register word. *)
Definition world_ok {hdr : SPI_Header} (w : World) : Prop :=
  forall spi r, fits reg_bits (get_reg r (block spi w)).

(** Both register blocks of two machine states agree (the traces may differ). *)
Definition same_registers (w w' : World) : Prop :=
  spi1 w = spi1 w' /\ spi2 w = spi2 w'.

(** [bit_assigned spi r pos b w w']: from [w] to [w'] bit [pos] of register
    [r] of instance [spi] became [b], and no other bit of any register of
    either instance changed. *)
Definition bit_assigned (spi : SPI_Periph) (r : Reg) (pos : Z) (b : bool)
    (w w' : World) : Prop :=
  (forall n, Z.testbit (get_reg r (block spi w')) n =
             if pos =? n then b else Z.testbit (get_reg r (block spi w)) n)
  /\ frame spi [r] w w'.

(** The accesses a computation makes when started on the registers of [w]. *)
Definition accesses {A} (c : M A) (w : World) : list Access :=
  trace (exec c (mkWorld (spi1 w) (spi2 w) [])).

(** The OR of the eight field encodings of a descriptor. *)
Definition pack (D : SPI_Config_T) : Z :=
  Z.lor (Z.lor (Z.lor (Z.lor (Z.lor (Z.lor (Z.lor
    (direction D) (mode D)) (length D)) (polarity D))
    (phase D)) (nss D)) (baudrateDiv D)) (firstBit D).

(** A descriptor whose members are encodings of control-1 fields, and whose
    polynomial is a 16-bit value: all of them are unsigned 16-bit numbers. *)
Definition config_ok (D : SPI_Config_T) : Prop :=
  fits 16 (direction D) /\ fits 16 (mode D) /\ fits 16 (length D) /\
  fits 16 (polarity D) /\ fits 16 (phase D) /\ fits 16 (nss D) /\
  fits 16 (baudrateDiv D) /\ fits 16 (firstBit D) /\
  fits 16 (crcPolynomial D).

(** *** The clearing protocols, as the specification words them *)

Inductive ErrorKind : Type := CRC_Error | Overrun | Underrun | Mode_Fault.

(** A step of a protocol: some read, or some write, of a register. *)
Inductive Step : Type := ReadOf (r : Reg) | WriteOf (r : Reg).

Definition step_matches (spi : SPI_Periph) (s : Step) (a : Access) : bool :=
  match s, a with
  | ReadOf r, Rd p r' => SPI_Periph_eqb spi p && Reg_eqb r r'
  | WriteOf r, Wr p r' _ => SPI_Periph_eqb spi p && Reg_eqb r r'
  | _, _ => false
  end.

(** The steps occur, in this order, among the accesses. *)
Fixpoint occur_in_order (spi : SPI_Periph) (steps : list Step)
    (t : list Access) {struct t} : bool :=
  match steps, t with
  | [], _ => true
  | _ :: _, [] => false
  | s :: steps', a :: t' =>
      if step_matches spi s a
      then occur_in_order spi steps' t'
      else occur_in_order spi steps t'
  end.

(** The specification's table: CRC-error, a direct clear of the status bit;
    overrun, a read of the data register then a read of the status register;
    underrun, a read of the status register; mode-fault, a read of the status
    register then the peripheral-enable write to control-1. *)
Definition clearing_protocol (k : ErrorKind) : list Step :=
  match k with
  | CRC_Error => [WriteOf STS]
  | Overrun => [ReadOf DATA; ReadOf STS]
  | Underrun => [ReadOf STS]
  | Mode_Fault => [ReadOf STS; WriteOf CTRL1]
  end.

Definition status_flag_of {hdr : SPI_Header} (k : ErrorKind) : Z :=
  match k with
  | CRC_Error => SPI_FLAG_CRCE
  | Overrun => SPI_FLAG_OVR
  | Underrun => SPI_FLAG_UDR
  | Mode_Fault => SPI_FLAG_ME
  end.

Definition int_flag_of {hdr : SPI_Header} (k : ErrorKind) : Z :=
  match k with
  | CRC_Error => SPI_INT_CRCE
  | Overrun => SPI_INT_OVR
  | Underrun => SPI_INT_UDR
  | Mode_Fault => SPI_INT_ME
  end.

(** A call enacts the protocol of kind [k] when the protocol's steps occur in
    order among the accesses the call makes and, for CRC-error, the status bit
    is clear afterwards. *)
Definition enacts {hdr : SPI_Header} {A} (spi : SPI_Periph) (k : ErrorKind)
    (c : M A) (w : World) : Prop :=
  occur_in_order spi (clearing_protocol k) (accesses c w) = true
  /\ (k = CRC_Error ->
      Z.testbit (sts (block spi (exec c w))) CRCEFLG_Pos = false).

(** The clear operations enact, for every kind, that kind's protocol. *)
Definition clear_enacts_protocol {hdr : SPI_Header} (spi : SPI_Periph)
    (k : ErrorKind) (w : World) : Prop :=
  enacts spi k (SPI_ClearStatusFlag spi (status_flag_of k)) w
  /\ enacts spi k (SPI_ClearIntFlag spi (int_flag_of k)) w.

(** The descriptor the specification gives as the default. *)
Definition default_descriptor {hdr : SPI_Header} : SPI_Config_T :=
  {| direction := SPI_DIRECTION_2LINES_FULLDUPLEX;
     mode := SPI_MODE_SLAVE;
     length := SPI_DATA_LENGTH_8B;
     polarity := SPI_CLKPOL_LOW;
     phase := SPI_CLKPHA_1EDGE;
     nss := SPI_NSS_HARD;
     baudrateDiv := SPI_BAUDRATE_DIV_2;
     firstBit := SPI_FIRSTBIT_MSB;
     crcPolynomial := 7 |}.

(** A machine state for the examples: instance 1 mid-transfer with every
    status flag raised, instance 2 at its power-on values. *)
Definition busy_world : World :=
  {| spi1 := mkSPI 0x3F7F 0x00E7 0x00FF 0x00A5 0x1021 0x0C3F 0x5A5A;
     spi2 := mkSPI 0 0 0x0002 0 7 0 0;
     trace := [] |}.

(** A descriptor for the examples: a master, 16-bit frames, software NSS. *)
Definition master_descriptor : SPI_Config_T :=
  {| direction := 0x0000; mode := 0x0104; length := 0x0800;
     polarity := 0x0002; phase := 0x0001; nss := 0x0200;
     baudrateDiv := 0x0018; firstBit := 0x0080; crcPolynomial := 0x1021 |}.

(** * The remaining driver functions *)

(** What they take from the absent header, again as parameters: the positions
    of the other one-bit fields, position and width of the three fields that
    are read back, and the two enumerators of SPI_DIRECTION_SELECT_T. *)
Class SPI_Header_More : Type := {
  (* CTRL1_B *)
  ISSEL_Pos : Z;
  DFLSEL_Pos : Z;
  CRCNXT_Pos : Z;
  CRCEN_Pos : Z;
  (* CTRL2_B *)
  SSOEN_Pos : Z;
  (* CRCPOLY_B.CRCPOLY, RXCRC_B.RXCRC, TXCRC_B.TXCRC *)
  CRCPOLY_Pos : Z;
  CRCPOLY_Len : Z;
  RXCRC_Pos : Z;
  RXCRC_Len : Z;
  TXCRC_Pos : Z;
  TXCRC_Len : Z;
  (* SPI_DIRECTION_SELECT_T *)
  SPI_DIRECTION_RX : Z;
  SPI_DIRECTION_TX : Z
}.

(** Bit-fields lie inside their word and the one-bit fields of one word are
    different bits. *)
Record header_more_ok (h : SPI_Header) (m : SPI_Header_More) : Prop := {
  ISSEL_range : 0 <= ISSEL_Pos < reg_bits;
  DFLSEL_range : 0 <= DFLSEL_Pos < reg_bits;
  CRCNXT_range : 0 <= CRCNXT_Pos < reg_bits;
  CRCEN_range : 0 <= CRCEN_Pos < reg_bits;
  SSOEN_range : 0 <= SSOEN_Pos < reg_bits;
  CRCPOLY_range : 0 <= CRCPOLY_Pos /\ 0 <= CRCPOLY_Len;
  RXCRC_range : 0 <= RXCRC_Pos /\ 0 <= RXCRC_Len;
  TXCRC_range : 0 <= TXCRC_Pos /\ 0 <= TXCRC_Len;
  CTRL1_fields_distinct :
    SPIEN_Pos <> ISSEL_Pos /\ SPIEN_Pos <> DFLSEL_Pos /\
    SPIEN_Pos <> CRCNXT_Pos /\ SPIEN_Pos <> CRCEN_Pos /\
    ISSEL_Pos <> DFLSEL_Pos /\ ISSEL_Pos <> CRCNXT_Pos /\
    ISSEL_Pos <> CRCEN_Pos /\ DFLSEL_Pos <> CRCNXT_Pos /\
    DFLSEL_Pos <> CRCEN_Pos /\ CRCNXT_Pos <> CRCEN_Pos;
  CTRL2_fields_distinct :
    SSOEN_Pos <> RXDEN_Pos /\ SSOEN_Pos <> TXDEN_Pos
}.

(** The rest of the concrete header of the examples. *)
Definition apm32s10x_more : SPI_Header_More := {|
  ISSEL_Pos := 8;
  DFLSEL_Pos := 11;
  CRCNXT_Pos := 12;
  CRCEN_Pos := 13;
  SSOEN_Pos := 2;
  CRCPOLY_Pos := 0;
  CRCPOLY_Len := 16;
  RXCRC_Pos := 0;
  RXCRC_Len := 16;
  TXCRC_Pos := 0;
  TXCRC_Len := 16;
  SPI_DIRECTION_RX := 0xBFFF;
  SPI_DIRECTION_TX := 0x4000
|}.

(** The value of a bit-field of [len] bits at position [pos] of a word. *)
Definition read_field (pos len word : Z) : Z :=
  Z.shiftr word pos mod 2 ^ len.

Section DriverMore.

Context {hdr : SPI_Header} {more : SPI_Header_More}.
Local Open Scope drv_scope.

(** *** Slave select *)

Definition SPI_SetSoftwareNSS (spi : SPI_Periph) : M unit :=
  store_bit spi CTRL1 ISSEL_Pos BIT_SET.

Definition SPI_ResetSoftwareNSS (spi : SPI_Periph) : M unit :=
  store_bit spi CTRL1 ISSEL_Pos BIT_RESET.

Definition SPI_EnableSSOutput (spi : SPI_Periph) : M unit :=
  store_bit spi CTRL2 SSOEN_Pos BIT_SET.

Definition SPI_DisableSSOutput (spi : SPI_Periph) : M unit :=
  store_bit spi CTRL2 SSOEN_Pos BIT_RESET.

(** *** Frame length and line direction *)

Definition SPI_ConfigDataSize (spi : SPI_Periph) (length : Z) : M unit :=
  store_bit spi CTRL1 DFLSEL_Pos BIT_RESET ;;
  v <- load spi CTRL1 ;;
  store spi CTRL1 (Z.lor v length).

Definition SPI_ConfigBiDirectionalLine (spi : SPI_Periph) (direction : Z)
    : M unit :=
  if direction =? SPI_DIRECTION_TX
  then v <- load spi CTRL1 ;; store spi CTRL1 (Z.lor v SPI_DIRECTION_TX)
  else v <- load spi CTRL1 ;; store spi CTRL1 (Z.land v SPI_DIRECTION_RX).

(** *** CRC *)

Definition SPI_TxCRC (spi : SPI_Periph) : M unit :=
  store_bit spi CTRL1 CRCNXT_Pos BIT_SET.

Definition SPI_EnableCRC (spi : SPI_Periph) : M unit :=
  store_bit spi CTRL1 CRCEN_Pos BIT_SET.

Definition SPI_DisableCRC (spi : SPI_Periph) : M unit :=
  store_bit spi CTRL1 CRCEN_Pos BIT_RESET.

Definition SPI_ReadTxCRC (spi : SPI_Periph) : M Z :=
  v <- load spi TXCRC ;;
  ret (uint16_t (read_field TXCRC_Pos TXCRC_Len v)).

Definition SPI_ReadRxCRC (spi : SPI_Periph) : M Z :=
  v <- load spi RXCRC ;;
  ret (uint16_t (read_field RXCRC_Pos RXCRC_Len v)).

Definition SPI_ReadCRCPolynomial (spi : SPI_Periph) : M Z :=
  v <- load spi CRCPOLY ;;
  ret (uint16_t (read_field CRCPOLY_Pos CRCPOLY_Len v)).

End DriverMore.

(** A read-modify-write [spi->R = f (spi->R)], the shape of every compound
    assignment and bit-field assignment of the driver. *)
Definition rmw {hdr : SPI_Header} (spi : SPI_Periph) (r : Reg) (f : Z -> Z)
    : M unit :=
  bind (load spi r) (fun v => store spi r (f v)).

(** * Proof automation *)

(** Unfold the monad down to the register records. *)
Ltac run_driver :=
  unfold exec, result, store_bit, bind, load, store, ret, log;
  cbn [fst snd block set_block get_reg set_reg other
       ctrl1 ctrl2 sts data crcpoly rxcrc txcrc spi1 spi2 trace].

(** Decide [header_ok] and [world_ok] at concrete values. *)
Ltac vendor_header := constructor; cbn; lia.
Ltac vendor_world := intros [] []; unfold fits; cbn; lia.

(** * Properties *)

(** ** Bit-level facts about unsigned words *)

Lemma fits_high_bits (n v i : Z) :
  0 <= n -> fits n v -> n <= i -> Z.testbit v i = false.
Proof.
  intros Hn Hv Hi.
  rewrite <- (Z.mod_small v (2 ^ n)) by exact Hv.
  apply Z.mod_pow2_bits_high; lia.
Qed.

Lemma high_bits_fits (n v : Z) :
  0 <= n -> (forall i, n <= i -> Z.testbit v i = false) -> fits n v.
Proof.
  intros Hn Hbits.
  assert (E : v mod 2 ^ n = v).
  { apply Z.bits_inj'; intros i Hi.
    rewrite Z.testbit_mod_pow2 by exact Hn.
    destruct (Z.ltb_spec i n) as [Hlt | Hge]; simpl.
    - reflexivity.
    - symmetry; apply Hbits; exact Hge. }
  unfold fits; rewrite <- E.
  apply Z.mod_pos_bound, Z.pow_pos_nonneg; lia.
Qed.

Lemma fits_mono (n m v : Z) : 0 <= n <= m -> fits n v -> fits m v.
Proof.
  intros Hnm [Hlo Hhi]; split; [exact Hlo |].
  apply Z.lt_le_trans with (2 ^ n); [exact Hhi |].
  apply Z.pow_le_mono_r; lia.
Qed.

Lemma fits_lor (n a b : Z) :
  0 <= n -> fits n a -> fits n b -> fits n (Z.lor a b).
Proof.
  intros Hn Ha Hb; apply high_bits_fits; [exact Hn |]; intros i Hi.
  rewrite Z.lor_spec, (fits_high_bits n a), (fits_high_bits n b); auto.
Qed.

Lemma fits_land_r (n a m : Z) : 0 <= n -> fits n m -> fits n (Z.land a m).
Proof.
  intros Hn Hm; apply high_bits_fits; [exact Hn |]; intros i Hi.
  rewrite Z.land_spec, (fits_high_bits n m); auto using andb_false_r.
Qed.

Lemma fits_land_l (n a m : Z) : 0 <= n -> fits n a -> fits n (Z.land a m).
Proof. intros; rewrite Z.land_comm; apply fits_land_r; assumption. Qed.

Lemma fits_setbit (n a p : Z) :
  0 <= p < n -> fits n a -> fits n (Z.setbit a p).
Proof.
  intros Hp Ha; apply high_bits_fits; [lia |]; intros i Hi.
  rewrite Z.setbit_neq by lia. apply (fits_high_bits n); auto; lia.
Qed.

Lemma fits_clearbit (n a p : Z) :
  0 <= n -> fits n a -> fits n (Z.clearbit a p).
Proof.
  intros Hn Ha; apply high_bits_fits; [lia |]; intros i Hi.
  rewrite Z.clearbit_eqb, (fits_high_bits n a); auto.
Qed.

Lemma fits_assign_bit (n p x a : Z) :
  0 <= p < n -> fits n a -> fits n (assign_bit p x a).
Proof.
  intros Hp Ha; unfold assign_bit; destruct (Z.odd x).
  - apply fits_setbit; assumption.
  - apply fits_clearbit; [lia | assumption].
Qed.

Lemma uint16_t_fits (v : Z) : fits 16 v -> uint16_t v = v.
Proof. intros Hv; apply Z.mod_small; exact Hv. Qed.

Lemma uint32_t_fits (v : Z) : fits 32 v -> uint32_t v = v.
Proof. intros Hv; apply Z.mod_small; exact Hv. Qed.

(** The bits of a word after a one-bit field assignment. *)
Lemma assign_bit_spec (p x a i : Z) :
  0 <= p ->
  Z.testbit (assign_bit p x a) i =
  if p =? i then Z.odd x else Z.testbit a i.
Proof.
  intros Hp; unfold assign_bit; destruct (Z.odd x).
  - rewrite Z.setbit_eqb by exact Hp. destruct (p =? i); reflexivity.
  - rewrite Z.clearbit_eqb. destruct (p =? i); simpl;
      [apply andb_false_r | apply andb_true_r].
Qed.

(** ** Frames *)

Lemma get_set_reg_same (r : Reg) (v : Z) (b : SPI_T) :
  get_reg r (set_reg r v b) = v.
Proof. destruct r; reflexivity. Qed.

Lemma get_set_reg_other (r r' : Reg) (v : Z) (b : SPI_T) :
  r' <> r -> get_reg r' (set_reg r v b) = get_reg r' b.
Proof. intros Hne; destruct r, r'; try reflexivity; contradiction Hne; reflexivity. Qed.

Lemma block_set_block_same (spi : SPI_Periph) (b : SPI_T) (w : World) :
  block spi (set_block spi b w) = b.
Proof. destruct spi; reflexivity. Qed.

Lemma block_set_block_other (spi : SPI_Periph) (b : SPI_T) (w : World) :
  block (other spi) (set_block spi b w) = block (other spi) w.
Proof. destruct spi; reflexivity. Qed.

Lemma block_log (spi : SPI_Periph) (a : Access) (w : World) :
  block spi (log a w) = block spi w.
Proof. destruct spi; reflexivity. Qed.

Section DriverFacts.

Context {hdr : SPI_Header}.
Hypothesis hdr_ok : header_ok hdr.

Lemma reg_word_fits (v : Z) : fits reg_bits v -> reg_word v = v.
Proof. intros Hv; apply Z.mod_small; exact Hv. Qed.

Lemma fits16_reg (v : Z) : fits 16 v -> fits reg_bits v.
Proof. apply fits_mono. pose proof (reg_bits_range _ hdr_ok). lia. Qed.

Lemma fits_reg32 (v : Z) : fits reg_bits v -> fits 32 v.
Proof. apply fits_mono. pose proof (reg_bits_range _ hdr_ok). lia. Qed.

(** *** Effects of the primitive accesses *)

(** A bit-field assignment is one read and one write of the containing
    register; it changes that register only. *)
Lemma store_bit_run (spi : SPI_Periph) (r : Reg) (pos x : Z) (w : World) :
  let v := get_reg r (block spi w) in
  let v' := reg_word (assign_bit pos x v) in
  store_bit spi r pos x w =
  (tt, mkWorld (spi1 (set_block spi (set_reg r v' (block spi w)) w))
               (spi2 (set_block spi (set_reg r v' (block spi w)) w))
               (trace w ++ [Rd spi r; Wr spi r v'])).
Proof.
  destruct spi, w as [b1 b2 t]; unfold store_bit, bind, load, store, log;
    simpl; rewrite <- app_assoc; reflexivity.
Qed.

Lemma store_bit_block (spi : SPI_Periph) (r : Reg) (pos x : Z) (w : World) :
  block spi (exec (store_bit spi r pos x) w) =
  set_reg r (reg_word (assign_bit pos x (get_reg r (block spi w)))) (block spi w).
Proof. unfold exec; rewrite store_bit_run; destruct spi; reflexivity. Qed.

Lemma store_bit_frame (spi : SPI_Periph) (r : Reg) (pos x : Z) (w : World) :
  frame spi [r] w (exec (store_bit spi r pos x) w).
Proof.
  split.
  - intros r' Hr'. rewrite store_bit_block.
    apply get_set_reg_other. intros ->. apply Hr'. left; reflexivity.
  - unfold exec; rewrite store_bit_run; destruct spi; reflexivity.
Qed.

Lemma store_bit_trace (spi : SPI_Periph) (r : Reg) (pos x : Z) (w : World) :
  trace (exec (store_bit spi r pos x) w) =
  trace w ++ [Rd spi r;
              Wr spi r (reg_word (assign_bit pos x (get_reg r (block spi w))))].
Proof. unfold exec; rewrite store_bit_run; reflexivity. Qed.

(** The register after a bit-field assignment, when it held a word and the
    field lies in the word. *)
Lemma store_bit_value (spi : SPI_Periph) (r : Reg) (pos x : Z) (w : World) :
  0 <= pos < reg_bits ->
  fits reg_bits (get_reg r (block spi w)) ->
  get_reg r (block spi (exec (store_bit spi r pos x) w)) =
  assign_bit pos x (get_reg r (block spi w)).
Proof.
  intros Hpos Hv. rewrite store_bit_block, get_set_reg_same.
  apply reg_word_fits, fits_assign_bit; assumption.
Qed.

End DriverFacts.

(** ** Configuration *)

Lemma pack_fits (D : SPI_Config_T) : config_ok D -> fits 16 (pack D).
Proof.
  intros (Hd & Hm & Hl & Hpo & Hph & Hn & Hb & Hf & _).
  unfold pack; repeat apply fits_lor; solve [lia | assumption].
Qed.

Section Claims.

Context {hdr : SPI_Header}.
Hypothesis hdr_ok : header_ok hdr.

(** C1.  For every instance and every descriptor whose fields are documented
    encodings (unsigned 16-bit values), SPI_Config leaves control-1 equal to
    (old control-1 & 0x3040) | pack(D), leaves the CRC-polynomial register
    equal to the descriptor's crcPolynomial, and changes no other register of
    the instance (nor anything of the other instance). *)
Theorem SPI_Config_spec (spi : SPI_Periph) (D : SPI_Config_T) (w : World) :
  config_ok D ->
  let w' := exec (SPI_Config spi D) w in
  ctrl1 (block spi w') = Z.lor (Z.land (ctrl1 (block spi w)) 0x3040) (pack D)
  /\ crcpoly (block spi w') = crcPolynomial D
  /\ frame spi [CTRL1; CRCPOLY] w w'.
Proof.
  intros HD w'.
  pose proof (pack_fits D HD) as Hpack.
  destruct HD as (Hd & _ & _ & _ & _ & _ & _ & _ & Hcrc).
  assert (Hmask : fits 16 (Z.land (ctrl1 (block spi w)) 0x3040)).
  { apply fits_land_r; [lia | unfold fits; lia]. }
  assert (E1 : reg_word (Z.land (ctrl1 (block spi w)) 0x3040)
               = Z.land (ctrl1 (block spi w)) 0x3040).
  { apply reg_word_fits, (fits16_reg hdr_ok), Hmask. }
  assert (E2 : uint16_t (Z.lor (Z.lor (Z.lor (Z.lor (Z.lor (Z.lor (Z.lor
                 (uint32_t (direction D)) (mode D)) (length D)) (polarity D))
                 (phase D)) (nss D)) (baudrateDiv D)) (firstBit D)) = pack D).
  { rewrite (uint32_t_fits (direction D))
      by (apply (fits_mono 16); [lia | exact Hd]).
    apply uint16_t_fits, Hpack. }
  assert (E3 : reg_word (Z.lor (Z.land (ctrl1 (block spi w)) 0x3040) (pack D))
               = Z.lor (Z.land (ctrl1 (block spi w)) 0x3040) (pack D)).
  { apply reg_word_fits, (fits16_reg hdr_ok), fits_lor; [lia | | ]; assumption. }
  assert (E4 : reg_word (crcPolynomial D) = crcPolynomial D).
  { apply reg_word_fits, (fits16_reg hdr_ok), Hcrc. }
  subst w'; unfold SPI_Config; destruct spi, w as [b1 b2 t];
    run_driver; cbn [block spi1 spi2] in E1, E3;
    rewrite E1, E2, E3, E4; (split; [reflexivity | split; [reflexivity |]]);
    (split; [| reflexivity]);
    intros r Hr; destruct r; try reflexivity;
    exfalso; apply Hr; simpl; auto.
Qed.


(** C4.  SPI_ConfigStructInit is pure: whatever the structure held, it hands
    back the literal default descriptor (2-line full duplex, slave, 8-bit,
    clock low, first edge, hardware NSS, divide-by-2, MSB first, polynomial 7)
    and leaves the machine, registers and trace, as it was. *)
Theorem SPI_ConfigStructInit_spec (spiConfig : SPI_Config_T) (w : World) :
  SPI_ConfigStructInit spiConfig w = (default_descriptor, w)
  /\ crcPolynomial (result (SPI_ConfigStructInit spiConfig) w) = 7.
Proof. split; reflexivity. Qed.

(** ** Bit-field assignments *)

Lemma store_bit_assigned (spi : SPI_Periph) (r : Reg) (pos x : Z) (w : World) :
  0 <= pos < reg_bits -> world_ok w ->
  bit_assigned spi r pos (Z.odd x) w (exec (store_bit spi r pos x) w).
Proof.
  intros Hpos Hw; split.
  - intros n. rewrite store_bit_value by (auto; apply Hw).
    apply assign_bit_spec; lia.
  - apply store_bit_frame.
Qed.

Lemma reg_word_bits (v i : Z) :
  Z.testbit (reg_word v) i = (i <? reg_bits) && Z.testbit v i.
Proof.
  apply Z.testbit_mod_pow2. pose proof (reg_bits_range _ hdr_ok); lia.
Qed.

(** Writing the same bit twice is writing it once, from any word. *)
Lemma store_bit_twice (spi : SPI_Periph) (r : Reg) (pos x : Z) (w : World) :
  0 <= pos ->
  same_registers (exec (store_bit spi r pos x) (exec (store_bit spi r pos x) w))
                 (exec (store_bit spi r pos x) w).
Proof.
  intros Hpos.
  assert (E : forall v,
             reg_word (assign_bit pos x (reg_word (assign_bit pos x v)))
             = reg_word (assign_bit pos x v)).
  { intros v; apply Z.bits_inj'; intros i Hi.
    rewrite !reg_word_bits, !assign_bit_spec, reg_word_bits, assign_bit_spec
      by exact Hpos.
    destruct (i <? reg_bits), (pos =? i); reflexivity. }
  unfold exec; rewrite !store_bit_run; cbn [snd].
  destruct spi, w as [b1 b2 t], r; unfold same_registers;
    cbn [block set_block get_reg set_reg spi1 spi2 trace
         ctrl1 ctrl2 sts data crcpoly rxcrc txcrc];
    rewrite E; split; reflexivity.
Qed.

(** C7.  SPI_Enable and SPI_Disable are idempotent on the registers: a second
    call leaves both register blocks as the first left them.  Each call only
    assigns the SPIEN bit of control-1 (to 1, respectively 0), and each call
    returns: the functions are total. *)
Theorem SPI_Enable_Disable_idempotent (spi : SPI_Periph) (w : World) :
  world_ok w ->
  same_registers (exec (SPI_Enable spi) (exec (SPI_Enable spi) w))
                 (exec (SPI_Enable spi) w)
  /\ same_registers (exec (SPI_Disable spi) (exec (SPI_Disable spi) w))
                    (exec (SPI_Disable spi) w)
  /\ bit_assigned spi CTRL1 SPIEN_Pos true w (exec (SPI_Enable spi) w)
  /\ bit_assigned spi CTRL1 SPIEN_Pos false w (exec (SPI_Disable spi) w)
  /\ result (SPI_Enable spi) w = tt /\ result (SPI_Disable spi) w = tt.
Proof.
  intros Hw. pose proof (SPIEN_range _ hdr_ok) as Hpos.
  split; [apply store_bit_twice; lia |].
  split; [apply store_bit_twice; lia |].
  split; [exact (store_bit_assigned spi CTRL1 SPIEN_Pos BIT_SET w Hpos Hw) |].
  split; [exact (store_bit_assigned spi CTRL1 SPIEN_Pos BIT_RESET w Hpos Hw) |].
  split; reflexivity.
Qed.

(** C8.  SPI_ClearStatusFlag called for the CRC-error flag clears the CRCEFLG
    bit of the status register; every other bit of the status register and
    every other register is unchanged. *)
Theorem SPI_ClearStatusFlag_CRCE (spi : SPI_Periph) (w : World) :
  world_ok w ->
  bit_assigned spi STS CRCEFLG_Pos false w
               (exec (SPI_ClearStatusFlag spi SPI_FLAG_CRCE) w).
Proof.
  intros Hw.
  exact (store_bit_assigned spi STS CRCEFLG_Pos BIT_RESET w
           (CRCEFLG_range _ hdr_ok) Hw).
Qed.

(** C9.  SPI_ClearStatusFlag and SPI_ClearIntFlag are the same computation,
    whatever flags they are called with: same result, same registers, same
    accesses; in particular neither depends on its flag argument. *)
Theorem SPI_ClearStatusFlag_ClearIntFlag_equal
    (spi : SPI_Periph) (flag flag' : Z) (w : World) :
  SPI_ClearStatusFlag spi flag w = SPI_ClearIntFlag spi flag' w
  /\ SPI_ClearStatusFlag spi flag w = SPI_ClearStatusFlag spi flag' w
  /\ SPI_ClearIntFlag spi flag w = SPI_ClearIntFlag spi flag' w.
Proof. repeat split. Qed.

(** ** DMA requests *)

Lemma SPI_EnableDMA_TX (spi : SPI_Periph) :
  SPI_EnableDMA spi SPI_DMA_REQ_TX = store_bit spi CTRL2 TXDEN_Pos ENABLE.
Proof. unfold SPI_EnableDMA; rewrite Z.eqb_refl; reflexivity. Qed.

Lemma SPI_DisableDMA_TX (spi : SPI_Periph) :
  SPI_DisableDMA spi SPI_DMA_REQ_TX = store_bit spi CTRL2 TXDEN_Pos DISABLE.
Proof. unfold SPI_DisableDMA; rewrite Z.eqb_refl; reflexivity. Qed.

Lemma SPI_EnableDMA_not_TX (spi : SPI_Periph) (dmaReq : Z) :
  dmaReq <> SPI_DMA_REQ_TX ->
  SPI_EnableDMA spi dmaReq = store_bit spi CTRL2 RXDEN_Pos ENABLE.
Proof.
  intros Hne; unfold SPI_EnableDMA.
  destruct (Z.eqb_spec dmaReq SPI_DMA_REQ_TX); [contradiction | reflexivity].
Qed.

Lemma SPI_DisableDMA_not_TX (spi : SPI_Periph) (dmaReq : Z) :
  dmaReq <> SPI_DMA_REQ_TX ->
  SPI_DisableDMA spi dmaReq = store_bit spi CTRL2 RXDEN_Pos DISABLE.
Proof.
  intros Hne; unfold SPI_DisableDMA.
  destruct (Z.eqb_spec dmaReq SPI_DMA_REQ_TX); [contradiction | reflexivity].
Qed.

(** A bit assignment leaves every other bit position as it was. *)
Lemma bit_assigned_other_bit
    (spi : SPI_Periph) (r : Reg) (pos q : Z) (b : bool) (w w' : World) :
  bit_assigned spi r pos b w w' -> pos <> q ->
  Z.testbit (get_reg r (block spi w')) q = Z.testbit (get_reg r (block spi w)) q.
Proof.
  intros [Hbits _] Hne. rewrite Hbits.
  destruct (Z.eqb_spec pos q); [contradiction | reflexivity].
Qed.

(** C6.  Enabling or disabling the transmit DMA request assigns the TXDEN bit
    of control-2 and nothing else, so the RXDEN bit keeps its value; enabling
    or disabling the receive request assigns the RXDEN bit and nothing else,
    so the TXDEN bit keeps its value.  No other register changes. *)
Theorem SPI_DMA_requests_independent (spi : SPI_Periph) (w : World) :
  world_ok w ->
  let c2 := fun w' => ctrl2 (block spi w') in
  let txOn := exec (SPI_EnableDMA spi SPI_DMA_REQ_TX) w in
  let txOff := exec (SPI_DisableDMA spi SPI_DMA_REQ_TX) w in
  let rxOn := exec (SPI_EnableDMA spi SPI_DMA_REQ_RX) w in
  let rxOff := exec (SPI_DisableDMA spi SPI_DMA_REQ_RX) w in
  (bit_assigned spi CTRL2 TXDEN_Pos true w txOn
   /\ Z.testbit (c2 txOn) RXDEN_Pos = Z.testbit (c2 w) RXDEN_Pos)
  /\ (bit_assigned spi CTRL2 TXDEN_Pos false w txOff
      /\ Z.testbit (c2 txOff) RXDEN_Pos = Z.testbit (c2 w) RXDEN_Pos)
  /\ (bit_assigned spi CTRL2 RXDEN_Pos true w rxOn
      /\ Z.testbit (c2 rxOn) TXDEN_Pos = Z.testbit (c2 w) TXDEN_Pos)
  /\ (bit_assigned spi CTRL2 RXDEN_Pos false w rxOff
      /\ Z.testbit (c2 rxOff) TXDEN_Pos = Z.testbit (c2 w) TXDEN_Pos).
Proof.
  intros Hw c2 txOn txOff rxOn rxOff.
  pose proof (TXDEN_range _ hdr_ok) as Htx.
  pose proof (RXDEN_range _ hdr_ok) as Hrx.
  pose proof (TXDEN_RXDEN _ hdr_ok) as Hpos.
  pose proof (DMA_REQ_TX_RX _ hdr_ok) as Hreq.
  assert (A1 : bit_assigned spi CTRL2 TXDEN_Pos true w txOn).
  { subst txOn; rewrite SPI_EnableDMA_TX.
    exact (store_bit_assigned spi CTRL2 TXDEN_Pos ENABLE w Htx Hw). }
  assert (A2 : bit_assigned spi CTRL2 TXDEN_Pos false w txOff).
  { subst txOff; rewrite SPI_DisableDMA_TX.
    exact (store_bit_assigned spi CTRL2 TXDEN_Pos DISABLE w Htx Hw). }
  assert (A3 : bit_assigned spi CTRL2 RXDEN_Pos true w rxOn).
  { subst rxOn; rewrite SPI_EnableDMA_not_TX by (intros E; apply Hreq; auto).
    exact (store_bit_assigned spi CTRL2 RXDEN_Pos ENABLE w Hrx Hw). }
  assert (A4 : bit_assigned spi CTRL2 RXDEN_Pos false w rxOff).
  { subst rxOff; rewrite SPI_DisableDMA_not_TX by (intros E; apply Hreq; auto).
    exact (store_bit_assigned spi CTRL2 RXDEN_Pos DISABLE w Hrx Hw). }
  subst c2; cbn beta.
  split; [split; [exact A1 |] | split; [split; [exact A2 |] |
          split; [split; [exact A3 |] | split; [exact A4 |]]]].
  - exact (bit_assigned_other_bit spi CTRL2 _ _ _ _ _ A1 Hpos).
  - exact (bit_assigned_other_bit spi CTRL2 _ _ _ _ _ A2 Hpos).
  - exact (bit_assigned_other_bit spi CTRL2 _ _ _ _ _ A3 (not_eq_sym Hpos)).
  - exact (bit_assigned_other_bit spi CTRL2 _ _ _ _ _ A4 (not_eq_sym Hpos)).
Qed.

(** C10.  Any request value other than SPI_DMA_REQ_TX is treated as the
    receive request: SPI_EnableDMA and SPI_DisableDMA then do exactly what
    they do for SPI_DMA_REQ_RX, which is to assign the RXDEN bit of control-2
    (to 1, respectively 0). *)
Theorem SPI_DMA_non_TX_is_RX (spi : SPI_Periph) (dmaReq : Z) (w : World) :
  dmaReq <> SPI_DMA_REQ_TX ->
  world_ok w ->
  SPI_EnableDMA spi dmaReq w = SPI_EnableDMA spi SPI_DMA_REQ_RX w
  /\ SPI_DisableDMA spi dmaReq w = SPI_DisableDMA spi SPI_DMA_REQ_RX w
  /\ bit_assigned spi CTRL2 RXDEN_Pos true w (exec (SPI_EnableDMA spi dmaReq) w)
  /\ bit_assigned spi CTRL2 RXDEN_Pos false w
                  (exec (SPI_DisableDMA spi dmaReq) w).
Proof.
  intros Hne Hw.
  pose proof (RXDEN_range _ hdr_ok) as Hrx.
  assert (Hreq : SPI_DMA_REQ_RX <> SPI_DMA_REQ_TX).
  { intros E; apply (DMA_REQ_TX_RX _ hdr_ok); auto. }
  rewrite (SPI_EnableDMA_not_TX spi dmaReq Hne),
          (SPI_DisableDMA_not_TX spi dmaReq Hne),
          (SPI_EnableDMA_not_TX spi _ Hreq),
          (SPI_DisableDMA_not_TX spi _ Hreq).
  split; [reflexivity |]. split; [reflexivity |]. split.
  - exact (store_bit_assigned spi CTRL2 RXDEN_Pos ENABLE w Hrx Hw).
  - exact (store_bit_assigned spi CTRL2 RXDEN_Pos DISABLE w Hrx Hw).
Qed.

(** ** Interrupt enables and interrupt flags *)

(** C5.  SPI_EnableInterrupt sets in control-2 exactly the bits of the
    interrupt value shifted right by 8: bit n of control-2 is afterwards set
    when it was set or bit n+8 of the value is set.  SPI_DisableInterrupt
    clears exactly those bits.  Both leave every other register alone. *)
Theorem SPI_Interrupt_enable_bits (spi : SPI_Periph) (interrupt : Z) (w : World) :
  let c2 := fun w' => ctrl2 (block spi w') in
  let wOn := exec (SPI_EnableInterrupt spi interrupt) w in
  let wOff := exec (SPI_DisableInterrupt spi interrupt) w in
  (forall n, 0 <= n < reg_bits ->
     Z.testbit (c2 wOn) n = Z.testbit (c2 w) n || Z.testbit interrupt (n + 8))
  /\ (forall n, 0 <= n < reg_bits ->
        Z.testbit (c2 wOff) n =
        Z.testbit (c2 w) n && negb (Z.testbit interrupt (n + 8)))
  /\ fits reg_bits (c2 wOn) /\ fits reg_bits (c2 wOff)
  /\ frame spi [CTRL2] w wOn /\ frame spi [CTRL2] w wOff.
Proof.
  intros c2 wOn wOff.
  assert (Hbits : 0 < 2 ^ reg_bits).
  { apply Z.pow_pos_nonneg; pose proof (reg_bits_range _ hdr_ok); lia. }
  assert (EOn : c2 wOn = reg_word (Z.lor (c2 w) (Z.shiftr interrupt 8))).
  { subst c2 wOn; destruct spi, w as [b1 b2 t]; reflexivity. }
  assert (EOff : c2 wOff
                 = reg_word (Z.land (c2 w) (Z.lnot (Z.shiftr interrupt 8)))).
  { subst c2 wOff; destruct spi, w as [b1 b2 t]; reflexivity. }
  split; [| split; [| split; [| split; [| split]]]].
  - intros n Hn. rewrite EOn, reg_word_bits, Z.lor_spec, Z.shiftr_spec by lia.
    destruct (Z.ltb_spec n reg_bits); [reflexivity | lia].
  - intros n Hn.
    rewrite EOff, reg_word_bits, Z.land_spec, Z.lnot_spec, Z.shiftr_spec by lia.
    destruct (Z.ltb_spec n reg_bits); [reflexivity | lia].
  - rewrite EOn; apply Z.mod_pos_bound; exact Hbits.
  - rewrite EOff; apply Z.mod_pos_bound; exact Hbits.
  - subst wOn; destruct spi, w as [b1 b2 t]; (split; [| reflexivity]);
      intros r Hr; destruct r; try reflexivity; exfalso; apply Hr; simpl; auto.
  - subst wOff; destruct spi, w as [b1 b2 t]; (split; [| reflexivity]);
      intros r Hr; destruct r; try reflexivity; exfalso; apply Hr; simpl; auto.
Qed.

Lemma SPI_ReadIntFlag_run (spi : SPI_Periph) (flag : Z) (w : World) :
  world_ok w ->
  SPI_ReadIntFlag spi flag w =
  (if negb (Z.land (ctrl2 (block spi w)) (Z.shiftr flag 8) =? 0)
      && negb (Z.land (sts (block spi w)) flag =? 0)
   then SET else RESET,
   mkWorld (spi1 w) (spi2 w) (trace w ++ [Rd spi CTRL2; Rd spi STS])).
Proof.
  intros Hw.
  assert (E2 : uint32_t (Z.land (ctrl2 (block spi w)) (Z.shiftr flag 8))
               = Z.land (ctrl2 (block spi w)) (Z.shiftr flag 8)).
  { apply uint32_t_fits, fits_land_l; [lia |].
    apply (fits_reg32 hdr_ok), (Hw spi CTRL2). }
  assert (Es : uint32_t (Z.land (sts (block spi w)) flag)
               = Z.land (sts (block spi w)) flag).
  { apply uint32_t_fits, fits_land_l; [lia |].
    apply (fits_reg32 hdr_ok), (Hw spi STS). }
  unfold SPI_ReadIntFlag; destruct spi, w as [b1 b2 t]; run_driver;
    cbn [block spi1 spi2] in E2, Es; rewrite E2, Es, <- app_assoc;
    match goal with |- context [if ?c then _ else _] => destruct c end;
    reflexivity.
Qed.

(** C3.  SPI_ReadIntFlag returns SET exactly when both the control-2 enable
    bits of the flag (the flag value shifted right by 8) and the status bits
    of the flag are set, and RESET otherwise; so a raised status bit whose
    interrupt is disabled reads as RESET.  The call only reads control-2 and
    the status register: no register changes. *)
Theorem SPI_ReadIntFlag_spec (spi : SPI_Periph) (flag : Z) (w : World) :
  world_ok w ->
  let enabled := Z.land (ctrl2 (block spi w)) (Z.shiftr flag 8) in
  let pending := Z.land (sts (block spi w)) flag in
  let r := result (SPI_ReadIntFlag spi flag) w in
  (r = SET <-> enabled <> 0 /\ pending <> 0)
  /\ (r = RESET <-> ~ (enabled <> 0 /\ pending <> 0))
  /\ (pending <> 0 -> enabled = 0 -> r = RESET)
  /\ same_registers w (exec (SPI_ReadIntFlag spi flag) w)
  /\ accesses (SPI_ReadIntFlag spi flag) w = [Rd spi CTRL2; Rd spi STS].
Proof.
  intros Hw enabled pending r.
  assert (Hr : r = if negb (enabled =? 0) && negb (pending =? 0)
                   then SET else RESET).
  { subst r; unfold result; rewrite SPI_ReadIntFlag_run by exact Hw.
    reflexivity. }
  assert (Hregs : same_registers w (exec (SPI_ReadIntFlag spi flag) w)).
  { unfold exec; rewrite SPI_ReadIntFlag_run by exact Hw. split; reflexivity. }
  assert (Hacc : accesses (SPI_ReadIntFlag spi flag) w
                 = [Rd spi CTRL2; Rd spi STS]).
  { unfold accesses, exec; rewrite SPI_ReadIntFlag_run.
    - reflexivity.
    - intros p q; destruct p; [exact (Hw SPI1 q) | exact (Hw SPI2 q)]. }
  clearbody r enabled pending.
  split; [| split; [| split; [| split; [exact Hregs | exact Hacc]]]];
    destruct (Z.eqb_spec enabled 0) as [He | He],
             (Z.eqb_spec pending 0) as [Hp | Hp];
    cbn [negb andb] in Hr; subst r; unfold SET, RESET;
    intuition (discriminate || congruence).
Qed.

(** ** Clearing flags *)

Lemma SPI_ClearStatusFlag_accesses (spi : SPI_Periph) (flag : Z) (w : World) :
  accesses (SPI_ClearStatusFlag spi flag) w =
  [Rd spi STS;
   Wr spi STS (reg_word (Z.clearbit (sts (block spi w)) CRCEFLG_Pos))].
Proof.
  unfold accesses, SPI_ClearStatusFlag. rewrite store_bit_trace.
  destruct spi; reflexivity.
Qed.

Lemma SPI_ClearStatusFlag_bit (spi : SPI_Periph) (flag : Z) (w : World) :
  Z.testbit (sts (block spi (exec (SPI_ClearStatusFlag spi flag) w)))
            CRCEFLG_Pos = false.
Proof.
  unfold SPI_ClearStatusFlag.
  change (sts (block spi (exec (store_bit spi STS CRCEFLG_Pos BIT_RESET) w)))
    with (get_reg STS
            (block spi (exec (store_bit spi STS CRCEFLG_Pos BIT_RESET) w))).
  rewrite store_bit_block, get_set_reg_same, reg_word_bits.
  unfold assign_bit; cbn [BIT_RESET Z.odd].
  rewrite Z.clearbit_eq. apply andb_false_r.
Qed.

(** C2, as the code has it.  Called for the CRC-error kind, SPI_ClearStatusFlag
    and SPI_ClearIntFlag enact the documented direct clear of the CRC-error
    status bit.  For every flag value they make exactly two accesses, a read
    and a write of the status register: they never read the data register and
    never write control-1, so they enact neither the overrun nor the
    mode-fault sequence. *)
Theorem SPI_ClearFlag_protocols (spi : SPI_Periph) (flag : Z) (w : World) :
  (enacts spi CRC_Error (SPI_ClearStatusFlag spi (status_flag_of CRC_Error)) w
   /\ enacts spi CRC_Error (SPI_ClearIntFlag spi (int_flag_of CRC_Error)) w)
  /\ (exists v, accesses (SPI_ClearStatusFlag spi flag) w
                = [Rd spi STS; Wr spi STS v]
                /\ accesses (SPI_ClearIntFlag spi flag) w
                   = [Rd spi STS; Wr spi STS v])
  /\ (forall k, k = Overrun \/ k = Mode_Fault ->
        occur_in_order spi (clearing_protocol k)
                       (accesses (SPI_ClearStatusFlag spi flag) w) = false
        /\ occur_in_order spi (clearing_protocol k)
                          (accesses (SPI_ClearIntFlag spi flag) w) = false).
Proof.
  assert (Hcrc : forall f,
             enacts spi CRC_Error (SPI_ClearStatusFlag spi f) w).
  { intros f; split.
    - rewrite SPI_ClearStatusFlag_accesses. destruct spi; reflexivity.
    - intros _. apply SPI_ClearStatusFlag_bit. }
  split; [split; apply Hcrc |]. split.
  - eexists; split; apply SPI_ClearStatusFlag_accesses.
  - intros k Hk.
    change (SPI_ClearIntFlag spi flag) with (SPI_ClearStatusFlag spi flag).
    rewrite SPI_ClearStatusFlag_accesses.
    destruct Hk as [-> | ->]; destruct spi; split; reflexivity.
Qed.

End Claims.

(** * The vendor's header *)

(** C2 as the specification states it fails for the overrun kind: on
    instance 1 the clear operation makes no read of the data register. *)
Lemma clear_enacts_protocol_counterexample :
  ~ @clear_enacts_protocol apm32s10x SPI1 Overrun busy_world.
Proof.
  intros [[Hsteps _] _]. vm_compute in Hsteps. discriminate Hsteps.
Qed.

(** The same for the mode-fault kind: no write of control-1 is made. *)
Lemma clear_does_not_enact_mode_fault :
  ~ @clear_enacts_protocol apm32s10x SPI2 Mode_Fault busy_world.
Proof.
  intros [[Hsteps _] _]. vm_compute in Hsteps. discriminate Hsteps.
Qed.

(** The documented sequences are what the driver's other operations do when
    the caller composes them. *)
Lemma caller_sequences_enact_protocols :
  @enacts apm32s10x _ SPI1 Overrun
     (bind (SPI_RxData SPI1) (fun _ => SPI_ReadStatusFlag SPI1 0x0040))
     busy_world
  /\ @enacts apm32s10x _ SPI1 Underrun (SPI_ReadStatusFlag SPI1 0x0008)
       busy_world
  /\ @enacts apm32s10x _ SPI1 Mode_Fault
       (bind (SPI_ReadStatusFlag SPI1 0x0020)
             (fun _ => @SPI_Enable apm32s10x SPI1))
       busy_world.
Proof.
  repeat split; try reflexivity; intros Hk; discriminate Hk.
Qed.

(** ** Instances of the theorems at the vendor's values *)

Lemma SPI_Config_spec_witness :
  header_ok apm32s10x /\ config_ok master_descriptor /\
  ctrl1 (block SPI1 (exec (@SPI_Config apm32s10x SPI1 master_descriptor)
                          busy_world)) = 0x3BDF
  /\ crcpoly (block SPI1 (exec (@SPI_Config apm32s10x SPI1 master_descriptor)
                               busy_world)) = 0x1021.
Proof.
  assert (Hh : header_ok apm32s10x) by vendor_header.
  assert (HD : config_ok master_descriptor)
    by (unfold config_ok, fits; cbn; lia).
  split; [exact Hh |]. split; [exact HD |].
  destruct (@SPI_Config_spec apm32s10x Hh SPI1 master_descriptor busy_world HD)
    as (H1 & H2 & _).
  split; [rewrite H1 | rewrite H2]; reflexivity.
Defined.

Lemma SPI_Enable_Disable_idempotent_witness :
  header_ok apm32s10x /\ @world_ok apm32s10x busy_world /\
  same_registers
    (exec (@SPI_Enable apm32s10x SPI2)
          (exec (@SPI_Enable apm32s10x SPI2) busy_world))
    (exec (@SPI_Enable apm32s10x SPI2) busy_world)
  /\ ctrl1 (block SPI2 (exec (@SPI_Enable apm32s10x SPI2) busy_world)) = 0x0040.
Proof.
  assert (Hh : header_ok apm32s10x) by vendor_header.
  assert (Hw : @world_ok apm32s10x busy_world) by vendor_world.
  split; [exact Hh |]. split; [exact Hw |].
  destruct (@SPI_Enable_Disable_idempotent apm32s10x Hh SPI2 busy_world Hw)
    as (H1 & _).
  split; [exact H1 | reflexivity].
Defined.

Lemma SPI_ClearStatusFlag_CRCE_witness :
  header_ok apm32s10x /\ @world_ok apm32s10x busy_world /\
  bit_assigned SPI1 STS 4 false busy_world
    (exec (@SPI_ClearStatusFlag apm32s10x SPI1 0x0010) busy_world).
Proof.
  assert (Hh : header_ok apm32s10x) by vendor_header.
  assert (Hw : @world_ok apm32s10x busy_world) by vendor_world.
  split; [exact Hh |]. split; [exact Hw |].
  exact (@SPI_ClearStatusFlag_CRCE apm32s10x Hh SPI1 busy_world Hw).
Defined.

Lemma SPI_DMA_requests_independent_witness :
  header_ok apm32s10x /\ @world_ok apm32s10x busy_world /\
  bit_assigned SPI2 CTRL2 1 true busy_world
    (exec (@SPI_EnableDMA apm32s10x SPI2 0x0002) busy_world)
  /\ Z.testbit (ctrl2 (block SPI1
        (exec (@SPI_DisableDMA apm32s10x SPI1 0x0002) busy_world))) 0 = true.
Proof.
  assert (Hh : header_ok apm32s10x) by vendor_header.
  assert (Hw : @world_ok apm32s10x busy_world) by vendor_world.
  split; [exact Hh |]. split; [exact Hw |].
  split.
  - exact (proj1 (proj1
      (@SPI_DMA_requests_independent apm32s10x Hh SPI2 busy_world Hw))).
  - destruct (@SPI_DMA_requests_independent apm32s10x Hh SPI1 busy_world Hw)
      as (_ & (_ & Hrx) & _).
    cbv beta in Hrx. etransitivity; [exact Hrx | reflexivity].
Defined.

Lemma SPI_DMA_non_TX_is_RX_witness :
  header_ok apm32s10x /\ 5 <> @SPI_DMA_REQ_TX apm32s10x /\
  @world_ok apm32s10x busy_world /\
  @SPI_EnableDMA apm32s10x SPI2 5 busy_world
  = @SPI_EnableDMA apm32s10x SPI2 0x0001 busy_world.
Proof.
  assert (Hh : header_ok apm32s10x) by vendor_header.
  assert (Hw : @world_ok apm32s10x busy_world) by vendor_world.
  assert (Hk : 5 <> @SPI_DMA_REQ_TX apm32s10x) by (cbn; lia).
  split; [exact Hh |]. split; [exact Hk |]. split; [exact Hw |].
  exact (proj1 (@SPI_DMA_non_TX_is_RX apm32s10x Hh SPI2 5 busy_world Hk Hw)).
Defined.

Lemma SPI_Interrupt_enable_bits_witness :
  header_ok apm32s10x /\
  Z.testbit (ctrl2 (block SPI2
     (exec (@SPI_EnableInterrupt apm32s10x SPI2 0x8002) busy_world))) 7 = true
  /\ Z.testbit (ctrl2 (block SPI1
     (exec (@SPI_DisableInterrupt apm32s10x SPI1 0x8002) busy_world))) 7
     = false.
Proof.
  assert (Hh : header_ok apm32s10x) by vendor_header.
  split; [exact Hh |].
  split.
  - destruct (@SPI_Interrupt_enable_bits apm32s10x Hh SPI2 0x8002 busy_world)
      as (Hon & _).
    rewrite (Hon 7) by (cbn; lia). reflexivity.
  - destruct (@SPI_Interrupt_enable_bits apm32s10x Hh SPI1 0x8002 busy_world)
      as (_ & Hoff & _).
    rewrite (Hoff 7) by (cbn; lia). reflexivity.
Defined.

(** Instance 2 has its transmit-empty status bit raised and no interrupt
    enabled: the interrupt flag reads as RESET. *)
Lemma SPI_ReadIntFlag_spec_witness :
  header_ok apm32s10x /\ @world_ok apm32s10x busy_world /\
  result (SPI_ReadIntFlag SPI2 0x8002) busy_world = RESET
  /\ result (SPI_ReadIntFlag SPI1 0x8002) busy_world = SET.
Proof.
  assert (Hh : header_ok apm32s10x) by vendor_header.
  assert (Hw : @world_ok apm32s10x busy_world) by vendor_world.
  split; [exact Hh |]. split; [exact Hw |].
  split.
  - destruct (@SPI_ReadIntFlag_spec apm32s10x Hh SPI2 0x8002 busy_world Hw)
      as (_ & _ & Hmasked & _).
    apply Hmasked; [cbn; lia | reflexivity].
  - destruct (@SPI_ReadIntFlag_spec apm32s10x Hh SPI1 0x8002 busy_world Hw)
      as (Hset & _).
    apply Hset; cbn; lia.
Defined.

Lemma SPI_ClearFlag_protocols_witness :
  header_ok apm32s10x /\
  @enacts apm32s10x _ SPI1 CRC_Error
     (@SPI_ClearStatusFlag apm32s10x SPI1 0x0010) busy_world
  /\ occur_in_order SPI1 (clearing_protocol Overrun)
       (accesses (@SPI_ClearStatusFlag apm32s10x SPI1 0x0040) busy_world)
     = false.
Proof.
  assert (Hh : header_ok apm32s10x) by vendor_header.
  split; [exact Hh |].
  destruct (@SPI_ClearFlag_protocols apm32s10x Hh SPI1 0x0040 busy_world)
    as ((Hcrc & _) & _ & Hnot).
  split; [exact Hcrc |].
  exact (proj1 (Hnot Overrun (or_introl eq_refl))).
Defined.

(** ** The driver run on concrete registers *)

Example SPI_ConfigStructInit_vendor :
  result (@SPI_ConfigStructInit apm32s10x master_descriptor) busy_world
  = mkConfig 0 0 0 0 0 0 0 0 7.
Proof. reflexivity. Qed.

Example SPI_Config_default_then_Enable :
  ctrl1 (block SPI2
    (exec (bind (@SPI_Config apm32s10x SPI2 (@default_descriptor apm32s10x))
                (fun _ => @SPI_Enable apm32s10x SPI2)) busy_world)) = 0x0040.
Proof. reflexivity. Qed.

Example SPI_ReadStatusFlag_busy_after_reset :
  result (SPI_ReadStatusFlag SPI2 0x0080) busy_world = RESET.
Proof. reflexivity. Qed.

Example SPI_ClearIntFlag_overrun_clears_CRCE :
  sts (block SPI1 (exec (@SPI_ClearIntFlag apm32s10x SPI1 0x2040) busy_world))
  = 0x00EF.
Proof. reflexivity. Qed.

Example SPI_TxData_RxData_same_register :
  result (bind (@SPI_TxData apm32s10x SPI2 0xA5) (fun _ => SPI_RxData SPI2))
         busy_world = 0xA5.
Proof. reflexivity. Qed.

(** * Further properties of the driver *)

(** ** Register-level reasoning *)

Lemma same_registers_blocks (w w' : World) :
  (forall spi, block spi w = block spi w') -> same_registers w w'.
Proof. intros H; split; [exact (H SPI1) | exact (H SPI2)]. Qed.

Lemma set_reg_set_reg (r : Reg) (u v : Z) (b : SPI_T) :
  set_reg r v (set_reg r u b) = set_reg r v b.
Proof. destruct r; reflexivity. Qed.

Lemma exec_bind {A B} (c : M A) (k : A -> M B) (w : World) :
  exec (bind c k) w = exec (k (result c w)) (exec c w).
Proof. unfold exec, result, bind; destruct (c w); reflexivity. Qed.

Section MoreFacts.

Context {hdr : SPI_Header} {more : SPI_Header_More}.
Hypothesis hdr_ok : header_ok hdr.
Hypothesis more_ok : header_more_ok hdr more.

Lemma reg_bits_nonneg : 0 <= reg_bits.
Proof. pose proof (reg_bits_range _ hdr_ok); lia. Qed.

Lemma reg_word_testbit (v i : Z) :
  Z.testbit (reg_word v) i = (i <? reg_bits) && Z.testbit v i.
Proof. apply Z.testbit_mod_pow2, reg_bits_nonneg. Qed.

Lemma reg_word_is_word (v : Z) : fits reg_bits (reg_word v).
Proof.
  apply Z.mod_pos_bound, Z.pow_pos_nonneg; [lia | apply reg_bits_nonneg].
Qed.

(** The register blocks after a read-modify-write. *)
Lemma rmw_block (spi spi' : SPI_Periph) (r : Reg) (f : Z -> Z) (w : World) :
  block spi' (exec (rmw spi r f) w) =
  if SPI_Periph_eqb spi' spi
  then set_reg r (reg_word (f (get_reg r (block spi w)))) (block spi w)
  else block spi' w.
Proof. destruct spi, spi', w as [b1 b2 t]; reflexivity. Qed.

Lemma rmw_world_ok (spi : SPI_Periph) (r : Reg) (f : Z -> Z) (w : World) :
  world_ok w -> world_ok (exec (rmw spi r f) w).
Proof.
  intros Hw p q. rewrite rmw_block.
  destruct (SPI_Periph_eqb p spi) eqn:E; [| apply Hw].
  destruct (Reg_eqb q r) eqn:Eq.
  - assert (q = r) as -> by (destruct q, r; try discriminate; reflexivity).
    rewrite get_set_reg_same. apply reg_word_is_word.
  - rewrite get_set_reg_other; [apply Hw |].
    intros ->. destruct r; discriminate.
Qed.

(** Two read-modify-writes of one register compose as their functions do,
    up to the truncation to a register word. *)
Lemma rmw_rmw_same (spi : SPI_Periph) (r : Reg) (f g h : Z -> Z) (w : World) :
  (forall v, reg_word (g (reg_word (f v))) = reg_word (h v)) ->
  same_registers (exec (rmw spi r g) (exec (rmw spi r f) w))
                 (exec (rmw spi r h) w).
Proof.
  intros Hfg; apply same_registers_blocks; intros p.
  rewrite !rmw_block.
  destruct (SPI_Periph_eqb p spi) eqn:E.
  - replace (SPI_Periph_eqb spi spi) with true by (destruct spi; reflexivity).
    rewrite get_set_reg_same, set_reg_set_reg, Hfg. reflexivity.
  - reflexivity.
Qed.

(** Two read-modify-writes of one register commute when their functions do. *)
Lemma rmw_rmw_commute (spi : SPI_Periph) (r : Reg) (f g : Z -> Z) (w : World) :
  (forall v, reg_word (g (reg_word (f v))) = reg_word (f (reg_word (g v)))) ->
  same_registers (exec (rmw spi r g) (exec (rmw spi r f) w))
                 (exec (rmw spi r f) (exec (rmw spi r g) w)).
Proof.
  intros Hfg; apply same_registers_blocks; intros p.
  rewrite !rmw_block.
  destruct (SPI_Periph_eqb p spi) eqn:E.
  - replace (SPI_Periph_eqb spi spi) with true by (destruct spi; reflexivity).
    rewrite !get_set_reg_same, !set_reg_set_reg, Hfg. reflexivity.
  - reflexivity.
Qed.

(** Assigning one bit, then assigning it again: the second value stays. *)
Lemma assign_bit_last (p x y v : Z) :
  0 <= p ->
  reg_word (assign_bit p y (reg_word (assign_bit p x v)))
  = reg_word (assign_bit p y v).
Proof.
  intros Hp; apply Z.bits_inj'; intros i Hi.
  rewrite !reg_word_testbit, !assign_bit_spec, reg_word_testbit,
    assign_bit_spec by exact Hp.
  destruct (i <? reg_bits), (p =? i); reflexivity.
Qed.

(** Assignments of two different bits commute. *)
Lemma assign_bit_commute (p q x y v : Z) :
  0 <= p -> 0 <= q -> p <> q ->
  reg_word (assign_bit q y (reg_word (assign_bit p x v)))
  = reg_word (assign_bit p x (reg_word (assign_bit q y v))).
Proof.
  intros Hp Hq Hne; apply Z.bits_inj'; intros i Hi.
  rewrite !reg_word_testbit, !assign_bit_spec, !reg_word_testbit,
    !assign_bit_spec by assumption.
  destruct (i <? reg_bits), (Z.eqb_spec p i), (Z.eqb_spec q i);
    try reflexivity; exfalso; apply Hne; congruence.
Qed.

Lemma store_bit_last_wins (spi : SPI_Periph) (r : Reg) (p x y : Z) (w : World) :
  0 <= p ->
  same_registers (exec (store_bit spi r p y) (exec (store_bit spi r p x) w))
                 (exec (store_bit spi r p y) w).
Proof.
  intros Hp.
  apply (rmw_rmw_same spi r (assign_bit p x) (assign_bit p y) (assign_bit p y)).
  intros v; apply assign_bit_last; exact Hp.
Qed.

Lemma store_bit_commute (spi : SPI_Periph) (r : Reg) (p q x y : Z) (w : World) :
  0 <= p -> 0 <= q -> p <> q ->
  same_registers (exec (store_bit spi r q y) (exec (store_bit spi r p x) w))
                 (exec (store_bit spi r p x) (exec (store_bit spi r q y) w)).
Proof.
  intros Hp Hq Hne.
  apply (rmw_rmw_commute spi r (assign_bit p x) (assign_bit q y)).
  intros v; apply assign_bit_commute; assumption.
Qed.

(** A one-bit assignment on a machine of register words. *)
Lemma store_bit_assigns (spi : SPI_Periph) (r : Reg) (pos x : Z) (w : World) :
  0 <= pos < reg_bits -> world_ok w ->
  bit_assigned spi r pos (Z.odd x) w (exec (store_bit spi r pos x) w).
Proof.
  intros Hpos Hw; split.
  - intros n. rewrite store_bit_value by (auto; apply Hw).
    apply assign_bit_spec; lia.
  - apply store_bit_frame.
Qed.

Lemma bit_assigned_keeps
    (spi : SPI_Periph) (r : Reg) (pos q : Z) (b : bool) (w w' : World) :
  bit_assigned spi r pos b w w' -> pos <> q ->
  Z.testbit (get_reg r (block spi w')) q = Z.testbit (get_reg r (block spi w)) q.
Proof.
  intros [Hbits _] Hne. rewrite Hbits.
  destruct (Z.eqb_spec pos q); [contradiction | reflexivity].
Qed.

End MoreFacts.

Section BitFieldOperations.

Context {hdr : SPI_Header} {more : SPI_Header_More}.
Hypothesis hdr_ok : header_ok hdr.
Hypothesis more_ok : header_more_ok hdr more.

(** ** Lifecycle: the last call decides *)

(** X1.  Of SPI_Enable and SPI_Disable the last call decides: disabling an
    enabled peripheral leaves the registers as disabling alone does, and
    enabling a disabled one as enabling alone does, from any register
    contents. *)
Theorem SPI_Enable_Disable_last_wins (spi : SPI_Periph) (w : World) :
  same_registers (exec (SPI_Disable spi) (exec (SPI_Enable spi) w))
                 (exec (SPI_Disable spi) w)
  /\ same_registers (exec (SPI_Enable spi) (exec (SPI_Disable spi) w))
                    (exec (SPI_Enable spi) w).
Proof.
  pose proof (SPIEN_range _ hdr_ok) as Hp.
  split; apply (store_bit_last_wins hdr_ok); lia.
Qed.

(** ** Slave select *)

(** X2.  SPI_SetSoftwareNSS and SPI_ResetSoftwareNSS assign the ISSEL bit of
    control-1 (to 1, to 0) and change no other bit of any register, so the
    peripheral-enable bit keeps its value; of the two, the last call
    decides. *)
Theorem SPI_SoftwareNSS_spec (spi : SPI_Periph) (w : World) :
  world_ok w ->
  let wSet := exec (SPI_SetSoftwareNSS spi) w in
  let wReset := exec (SPI_ResetSoftwareNSS spi) w in
  bit_assigned spi CTRL1 ISSEL_Pos true w wSet
  /\ bit_assigned spi CTRL1 ISSEL_Pos false w wReset
  /\ Z.testbit (ctrl1 (block spi wSet)) SPIEN_Pos
     = Z.testbit (ctrl1 (block spi w)) SPIEN_Pos
  /\ Z.testbit (ctrl1 (block spi wReset)) SPIEN_Pos
     = Z.testbit (ctrl1 (block spi w)) SPIEN_Pos
  /\ same_registers (exec (SPI_ResetSoftwareNSS spi) wSet) wReset
  /\ same_registers (exec (SPI_SetSoftwareNSS spi) wReset) wSet.
Proof.
  intros Hw wSet wReset.
  pose proof (ISSEL_range _ _ more_ok) as Hp.
  destruct (CTRL1_fields_distinct _ _ more_ok) as (Hne & _).
  assert (A1 : bit_assigned spi CTRL1 ISSEL_Pos true w wSet)
    by exact (store_bit_assigns spi CTRL1 ISSEL_Pos BIT_SET w Hp Hw).
  assert (A0 : bit_assigned spi CTRL1 ISSEL_Pos false w wReset)
    by exact (store_bit_assigns spi CTRL1 ISSEL_Pos BIT_RESET w Hp Hw).
  split; [exact A1 |]. split; [exact A0 |].
  split; [exact (bit_assigned_keeps spi CTRL1 _ _ _ _ _ A1 (not_eq_sym Hne)) |].
  split; [exact (bit_assigned_keeps spi CTRL1 _ _ _ _ _ A0 (not_eq_sym Hne)) |].
  split; apply (store_bit_last_wins hdr_ok); lia.
Qed.

(** X3.  SPI_EnableSSOutput and SPI_DisableSSOutput assign the SSOEN bit of
    control-2 and nothing else: both DMA request bits keep their values; the
    last call decides. *)
Theorem SPI_SSOutput_spec (spi : SPI_Periph) (w : World) :
  world_ok w ->
  let c2 := fun w' => ctrl2 (block spi w') in
  let wOn := exec (SPI_EnableSSOutput spi) w in
  let wOff := exec (SPI_DisableSSOutput spi) w in
  bit_assigned spi CTRL2 SSOEN_Pos true w wOn
  /\ bit_assigned spi CTRL2 SSOEN_Pos false w wOff
  /\ (forall w', w' = wOn \/ w' = wOff ->
        Z.testbit (c2 w') TXDEN_Pos = Z.testbit (c2 w) TXDEN_Pos
        /\ Z.testbit (c2 w') RXDEN_Pos = Z.testbit (c2 w) RXDEN_Pos)
  /\ same_registers (exec (SPI_DisableSSOutput spi) wOn) wOff
  /\ same_registers (exec (SPI_EnableSSOutput spi) wOff) wOn.
Proof.
  intros Hw c2 wOn wOff.
  pose proof (SSOEN_range _ _ more_ok) as Hp.
  destruct (CTRL2_fields_distinct _ _ more_ok) as (Hrx & Htx).
  assert (A1 : bit_assigned spi CTRL2 SSOEN_Pos true w wOn)
    by exact (store_bit_assigns spi CTRL2 SSOEN_Pos BIT_SET w Hp Hw).
  assert (A0 : bit_assigned spi CTRL2 SSOEN_Pos false w wOff)
    by exact (store_bit_assigns spi CTRL2 SSOEN_Pos BIT_RESET w Hp Hw).
  split; [exact A1 |]. split; [exact A0 |]. split.
  - intros w' [-> | ->]; subst c2; cbn beta; split.
    + exact (bit_assigned_keeps spi CTRL2 _ _ _ _ _ A1 Htx).
    + exact (bit_assigned_keeps spi CTRL2 _ _ _ _ _ A1 Hrx).
    + exact (bit_assigned_keeps spi CTRL2 _ _ _ _ _ A0 Htx).
    + exact (bit_assigned_keeps spi CTRL2 _ _ _ _ _ A0 Hrx).
  - split; apply (store_bit_last_wins hdr_ok); lia.
Qed.

(** ** CRC control *)

(** X4.  SPI_EnableCRC and SPI_DisableCRC assign the CRCEN bit of control-1,
    SPI_TxCRC sets the CRCNXT bit, and none of them changes another bit of any
    register: requesting the CRC transfer leaves the CRC enable and the
    peripheral enable as they were.  Of enable and disable the last call
    decides. *)
Theorem SPI_CRC_control_spec (spi : SPI_Periph) (w : World) :
  world_ok w ->
  let c1 := fun w' => ctrl1 (block spi w') in
  bit_assigned spi CTRL1 CRCEN_Pos true w (exec (SPI_EnableCRC spi) w)
  /\ bit_assigned spi CTRL1 CRCEN_Pos false w (exec (SPI_DisableCRC spi) w)
  /\ bit_assigned spi CTRL1 CRCNXT_Pos true w (exec (SPI_TxCRC spi) w)
  /\ Z.testbit (c1 (exec (SPI_TxCRC spi) w)) CRCEN_Pos
     = Z.testbit (c1 w) CRCEN_Pos
  /\ Z.testbit (c1 (exec (SPI_TxCRC spi) w)) SPIEN_Pos
     = Z.testbit (c1 w) SPIEN_Pos
  /\ same_registers (exec (SPI_DisableCRC spi) (exec (SPI_EnableCRC spi) w))
                    (exec (SPI_DisableCRC spi) w)
  /\ same_registers (exec (SPI_EnableCRC spi) (exec (SPI_DisableCRC spi) w))
                    (exec (SPI_EnableCRC spi) w).
Proof.
  intros Hw c1.
  pose proof (CRCEN_range _ _ more_ok) as Hen.
  pose proof (CRCNXT_range _ _ more_ok) as Hnx.
  destruct (CTRL1_fields_distinct _ _ more_ok)
    as (_ & _ & Hs & _ & _ & _ & _ & _ & _ & Hc).
  assert (A : bit_assigned spi CTRL1 CRCNXT_Pos true w (exec (SPI_TxCRC spi) w))
    by exact (store_bit_assigns spi CTRL1 CRCNXT_Pos BIT_SET w Hnx Hw).
  split; [exact (store_bit_assigns spi CTRL1 CRCEN_Pos BIT_SET w Hen Hw) |].
  split; [exact (store_bit_assigns spi CTRL1 CRCEN_Pos BIT_RESET w Hen Hw) |].
  split; [exact A |].
  split; [exact (bit_assigned_keeps spi CTRL1 _ _ _ _ _ A Hc) |].
  split; [exact (bit_assigned_keeps spi CTRL1 _ _ _ _ _ A (not_eq_sym Hs)) |].
  split; apply (store_bit_last_wins hdr_ok); lia.
Qed.

(** ** Order of the one-bit operations *)

(** X5.  The one-bit operations on different fields of control-1 commute:
    the registers do not depend on the order in which the peripheral is
    enabled, its CRC is enabled, its internal slave select is set and a CRC
    transfer is requested. *)
Theorem SPI_CTRL1_operations_commute (spi : SPI_Periph) (w : World) :
  same_registers (exec (SPI_EnableCRC spi) (exec (SPI_Enable spi) w))
                 (exec (SPI_Enable spi) (exec (SPI_EnableCRC spi) w))
  /\ same_registers (exec (SPI_SetSoftwareNSS spi) (exec (SPI_Enable spi) w))
                    (exec (SPI_Enable spi) (exec (SPI_SetSoftwareNSS spi) w))
  /\ same_registers (exec (SPI_TxCRC spi) (exec (SPI_EnableCRC spi) w))
                    (exec (SPI_EnableCRC spi) (exec (SPI_TxCRC spi) w))
  /\ same_registers (exec (SPI_DisableCRC spi) (exec (SPI_Disable spi) w))
                    (exec (SPI_Disable spi) (exec (SPI_DisableCRC spi) w))
  /\ same_registers
       (exec (SPI_ResetSoftwareNSS spi) (exec (SPI_DisableCRC spi) w))
       (exec (SPI_DisableCRC spi) (exec (SPI_ResetSoftwareNSS spi) w)).
Proof.
  pose proof (SPIEN_range _ hdr_ok) as Hsp.
  pose proof (ISSEL_range _ _ more_ok) as His.
  pose proof (CRCEN_range _ _ more_ok) as Hen.
  pose proof (CRCNXT_range _ _ more_ok) as Hnx.
  destruct (CTRL1_fields_distinct _ _ more_ok)
    as (H1 & _ & _ & H4 & _ & _ & H7 & _ & _ & H10).
  repeat split; apply (store_bit_commute hdr_ok); solve [lia | auto].
Qed.

(** ** DMA requests: order and undoing *)


End BitFieldOperations.

Section ConfigurationFacts.

Context {hdr : SPI_Header} {more : SPI_Header_More}.
Hypothesis hdr_ok : header_ok hdr.
Hypothesis more_ok : header_more_ok hdr more.

(** The register blocks after SPI_Config, for a descriptor of encodings. *)
Lemma SPI_Config_block (spi spi' : SPI_Periph) (D : SPI_Config_T) (w : World) :
  config_ok D ->
  block spi' (exec (SPI_Config spi D) w) =
  if SPI_Periph_eqb spi' spi
  then set_reg CRCPOLY (crcPolynomial D)
         (set_reg CTRL1 (Z.lor (Z.land (ctrl1 (block spi w)) 0x3040) (pack D))
                  (block spi w))
  else block spi' w.
Proof.
  intros HD.
  pose proof (pack_fits D HD) as Hpack.
  destruct HD as (Hd & _ & _ & _ & _ & _ & _ & _ & Hcrc).
  assert (Hmask : forall c, fits 16 (Z.land c 0x3040)).
  { intros c; apply fits_land_r; [lia | unfold fits; lia]. }
  assert (E1 : forall c, reg_word (Z.land c 0x3040) = Z.land c 0x3040).
  { intros c; apply reg_word_fits, (fits16_reg hdr_ok), Hmask. }
  assert (E2 : uint16_t (Z.lor (Z.lor (Z.lor (Z.lor (Z.lor (Z.lor (Z.lor
                 (uint32_t (direction D)) (mode D)) (length D)) (polarity D))
                 (phase D)) (nss D)) (baudrateDiv D)) (firstBit D)) = pack D).
  { rewrite (uint32_t_fits (direction D))
      by (apply (fits_mono 16); [lia | exact Hd]).
    apply uint16_t_fits, Hpack. }
  assert (E3 : forall c, reg_word (Z.lor (Z.land c 0x3040) (pack D))
                         = Z.lor (Z.land c 0x3040) (pack D)).
  { intros c; apply reg_word_fits, (fits16_reg hdr_ok), fits_lor;
      [lia | apply Hmask | exact Hpack]. }
  assert (E4 : reg_word (crcPolynomial D) = crcPolynomial D).
  { apply reg_word_fits, (fits16_reg hdr_ok), Hcrc. }
  unfold SPI_Config; destruct spi, spi', w as [b1 b2 t]; run_driver;
    rewrite ?E1, ?E2, ?E3, ?E4; reflexivity.
Qed.

Lemma config_overwrite (c m p1 p2 : Z) :
  Z.land (Z.land p1 m) (Z.lnot p2) = 0 ->
  Z.lor (Z.land (Z.lor (Z.land c m) p1) m) p2 = Z.lor (Z.land c m) p2.
Proof.
  intros Hdis; apply Z.bits_inj'; intros i Hi.
  assert (Hi' : Z.testbit p1 i && Z.testbit m i && negb (Z.testbit p2 i) = false).
  { rewrite <- Z.lnot_spec, <- !Z.land_spec by exact Hi.
    rewrite Hdis; apply Z.bits_0. }
  rewrite !Z.lor_spec, !Z.land_spec, Z.lor_spec, Z.land_spec.
  destruct (Z.testbit c i), (Z.testbit m i), (Z.testbit p1 i),
    (Z.testbit p2 i); try reflexivity; discriminate Hi'.
Qed.

Lemma SPI_Config_twice (spi : SPI_Periph) (D1 D2 : SPI_Config_T) (w : World) :
  config_ok D1 -> config_ok D2 ->
  Z.land (Z.land (pack D1) 0x3040) (Z.lnot (pack D2)) = 0 ->
  same_registers (exec (SPI_Config spi D2) (exec (SPI_Config spi D1) w))
                 (exec (SPI_Config spi D2) w).
Proof.
  intros H1 H2 Hdis; apply same_registers_blocks; intros p.
  rewrite !SPI_Config_block by assumption.
  destruct (SPI_Periph_eqb p spi) eqn:E; [| reflexivity].
  replace (SPI_Periph_eqb spi spi) with true by (destruct spi; reflexivity).
  destruct (block spi w) as [c1 c2 s d cp rx tx];
    cbn [set_reg ctrl1 ctrl2 sts data crcpoly rxcrc txcrc].
  rewrite config_overwrite by exact Hdis. reflexivity.
Qed.

(** X7.  SPI_Config is idempotent: configuring twice with one descriptor
    leaves the registers as configuring once does, whatever control-1 held
    before. *)
Theorem SPI_Config_idempotent (spi : SPI_Periph) (D : SPI_Config_T) (w : World) :
  config_ok D ->
  same_registers (exec (SPI_Config spi D) (exec (SPI_Config spi D) w))
                 (exec (SPI_Config spi D) w).
Proof.
  intros HD; apply SPI_Config_twice; try exact HD.
  apply Z.bits_inj'; intros i Hi.
  rewrite !Z.land_spec, Z.lnot_spec, Z.bits_0 by exact Hi.
  destruct (Z.testbit (pack D) i), (Z.testbit 0x3040 i); reflexivity.
Qed.

(** X8.  The last configuration wins: when the first descriptor sets none of
    the three bits that SPI_Config retains (mask 0x3040), configuring with a
    second descriptor afterwards leaves the registers exactly as if only the
    second configuration had been made. *)
Theorem SPI_Config_last_wins
    (spi : SPI_Periph) (D1 D2 : SPI_Config_T) (w : World) :
  config_ok D1 -> config_ok D2 ->
  Z.land (pack D1) 0x3040 = 0 ->
  same_registers (exec (SPI_Config spi D2) (exec (SPI_Config spi D1) w))
                 (exec (SPI_Config spi D2) w).
Proof.
  intros H1 H2 Hdis; apply SPI_Config_twice; try assumption.
  rewrite Hdis; apply Z.land_0_l.
Qed.

(** X9.  SPI_Config can set, but never clears, the three control-1 bits of
    the mask 0x3040; every other bit of control-1 is taken from the descriptor
    alone.  So when the peripheral-enable bit is one of the three, a
    peripheral enabled before the call is still enabled after it. *)
Theorem SPI_Config_retained_bits (spi : SPI_Periph) (D : SPI_Config_T) (w : World) :
  config_ok D ->
  let c1 := fun w' => ctrl1 (block spi w') in
  (forall n, 0 <= n ->
     Z.testbit (c1 (exec (SPI_Config spi D) w)) n =
     (Z.testbit (c1 w) n && Z.testbit 0x3040 n) || Z.testbit (pack D) n)
  /\ (forall n, Z.testbit (c1 w) n = true -> Z.testbit 0x3040 n = true ->
        Z.testbit (c1 (exec (SPI_Config spi D) w)) n = true)
  /\ (Z.testbit 0x3040 SPIEN_Pos = true ->
      Z.testbit (c1 (exec (SPI_Config spi D) (exec (SPI_Enable spi) w)))
                SPIEN_Pos = true).
Proof.
  intros HD c1.
  assert (E : forall w0, c1 (exec (SPI_Config spi D) w0)
                         = Z.lor (Z.land (c1 w0) 0x3040) (pack D)).
  { intros w0; subst c1; cbn beta. rewrite SPI_Config_block by exact HD.
    replace (SPI_Periph_eqb spi spi) with true by (destruct spi; reflexivity).
    destruct (block spi w0); reflexivity. }
  split; [| split].
  - intros n Hn. rewrite E, Z.lor_spec, Z.land_spec. reflexivity.
  - intros n Hold Hmask. rewrite E, Z.lor_spec, Z.land_spec, Hold, Hmask.
    reflexivity.
  - intros Hmask. pose proof (SPIEN_range _ hdr_ok) as Hp.
    rewrite E, Z.lor_spec, Z.land_spec, Hmask.
    subst c1; cbn beta.
    change (ctrl1 (block spi (exec (SPI_Enable spi) w)))
      with (get_reg CTRL1 (block spi (exec (SPI_Enable spi) w))).
    unfold SPI_Enable. rewrite store_bit_block, get_set_reg_same.
    rewrite (reg_word_testbit hdr_ok), assign_bit_spec, Z.eqb_refl by lia.
    destruct (Z.ltb_spec SPIEN_Pos reg_bits); [reflexivity | lia].
Qed.

(** X10.  The CRC polynomial round trip: after SPI_Config, SPI_ReadCRCPolynomial
    returns the descriptor's crcPolynomial, provided the CRCPOLY field starts
    at bit 0 of its register and is wide enough for the value. *)
Theorem SPI_Config_ReadCRCPolynomial
    (spi : SPI_Periph) (D : SPI_Config_T) (w : World) :
  config_ok D ->
  CRCPOLY_Pos = 0 ->
  fits CRCPOLY_Len (crcPolynomial D) ->
  result (SPI_ReadCRCPolynomial spi) (exec (SPI_Config spi D) w)
  = crcPolynomial D.
Proof.
  intros HD Hpos Hlen.
  assert (E : result (SPI_ReadCRCPolynomial spi) (exec (SPI_Config spi D) w)
              = uint16_t (read_field CRCPOLY_Pos CRCPOLY_Len
                            (crcpoly (block spi (exec (SPI_Config spi D) w))))).
  { destruct spi; reflexivity. }
  rewrite E, SPI_Config_block by exact HD.
  replace (SPI_Periph_eqb spi spi) with true by (destruct spi; reflexivity).
  destruct (block spi w) as [c1 c2 s d cp rx tx];
    cbn [set_reg ctrl1 ctrl2 sts data crcpoly rxcrc txcrc].
  unfold read_field; rewrite Hpos, Z.shiftr_0_r, (Z.mod_small _ _ Hlen).
  apply uint16_t_fits. destruct HD as (_ & _ & _ & _ & _ & _ & _ & _ & Hcrc).
  exact Hcrc.
Qed.

End ConfigurationFacts.

Section FlagFacts.

Context {hdr : SPI_Header}.
Hypothesis hdr_ok : header_ok hdr.

(** ** Status flags *)

(** X11.  SPI_ReadStatusFlag returns SET when some status bit of the flag
    mask is raised and RESET when none is; it makes one read of the status
    register and changes no register. *)
Theorem SPI_ReadStatusFlag_spec (spi : SPI_Periph) (flag : Z) (w : World) :
  let raised := Z.land (sts (block spi w)) flag in
  let r := result (SPI_ReadStatusFlag spi flag) w in
  (r = SET <-> raised <> 0)
  /\ (r = RESET <-> raised = 0)
  /\ same_registers w (exec (SPI_ReadStatusFlag spi flag) w)
  /\ accesses (SPI_ReadStatusFlag spi flag) w = [Rd spi STS].
Proof.
  intros raised r.
  assert (Hr : r = if negb (raised =? 0) then SET else RESET).
  { subst r raised; unfold result, SPI_ReadStatusFlag, bind, load, RESET.
    cbn [fst get_reg]. destruct (Z.land (sts (block spi w)) flag =? 0);
      reflexivity. }
  assert (Hregs : same_registers w (exec (SPI_ReadStatusFlag spi flag) w)).
  { unfold exec, SPI_ReadStatusFlag, bind, load; cbn [get_reg].
    destruct (negb (Z.land (sts (block spi w)) flag =? RESET));
      split; reflexivity. }
  assert (Hacc : accesses (SPI_ReadStatusFlag spi flag) w = [Rd spi STS]).
  { unfold accesses, exec, SPI_ReadStatusFlag, bind, load; cbn [get_reg].
    match goal with |- context [if ?c then _ else _] => destruct c end;
      reflexivity. }
  clearbody r raised.
  split; [| split; [| split; [exact Hregs | exact Hacc]]];
    destruct (Z.eqb_spec raised 0) as [He | He]; cbn [negb] in Hr; subst r;
    unfold SET, RESET; intuition (discriminate || congruence).
Qed.

Lemma SPI_ReadStatusFlag_value (spi : SPI_Periph) (flag : Z) (w : World) :
  result (SPI_ReadStatusFlag spi flag) w =
  if Z.land (sts (block spi w)) flag =? 0 then RESET else SET.
Proof.
  unfold result, SPI_ReadStatusFlag, bind, load, RESET; cbn [fst get_reg].
  destruct (Z.land (sts (block spi w)) flag =? 0); reflexivity.
Qed.

Lemma SPI_ReadIntFlag_value (spi : SPI_Periph) (flag : Z) (w : World) :
  world_ok w ->
  result (SPI_ReadIntFlag spi flag) w =
  if negb (Z.land (ctrl2 (block spi w)) (Z.shiftr flag 8) =? 0)
     && negb (Z.land (sts (block spi w)) flag =? 0)
  then SET else RESET.
Proof.
  intros Hw.
  assert (E2 : uint32_t (Z.land (ctrl2 (block spi w)) (Z.shiftr flag 8))
               = Z.land (ctrl2 (block spi w)) (Z.shiftr flag 8)).
  { apply uint32_t_fits, fits_land_l; [lia |].
    apply (fits_reg32 hdr_ok), (Hw spi CTRL2). }
  assert (Es : uint32_t (Z.land (sts (block spi w)) flag)
               = Z.land (sts (block spi w)) flag).
  { apply uint32_t_fits, fits_land_l; [lia |].
    apply (fits_reg32 hdr_ok), (Hw spi STS). }
  unfold result, SPI_ReadIntFlag, bind, load; cbn [fst get_reg].
  rewrite block_log, E2, Es.
  match goal with |- context [if ?c then _ else _] => destruct c end;
    reflexivity.
Qed.

(** X12.  An interrupt flag that reads SET has its status flag reading SET:
    SPI_ReadIntFlag never reports a condition that SPI_ReadStatusFlag, called
    with the same value, does not. *)
Theorem SPI_ReadIntFlag_implies_ReadStatusFlag
    (spi : SPI_Periph) (flag : Z) (w : World) :
  world_ok w ->
  result (SPI_ReadIntFlag spi flag) w = SET ->
  result (SPI_ReadStatusFlag spi flag) w = SET.
Proof.
  intros Hw. rewrite (SPI_ReadIntFlag_value spi flag w Hw),
    SPI_ReadStatusFlag_value.
  destruct (Z.land (sts (block spi w)) flag =? 0).
  - rewrite andb_false_r. intros H; exact H.
  - reflexivity.
Qed.

(** The status register after one of the two clear operations. *)
Lemma SPI_ClearStatusFlag_sts (spi : SPI_Periph) (flag : Z) (w : World) :
  sts (block spi (exec (SPI_ClearStatusFlag spi flag) w))
  = reg_word (Z.clearbit (sts (block spi w)) CRCEFLG_Pos).
Proof.
  change (sts (block spi (exec (SPI_ClearStatusFlag spi flag) w)))
    with (get_reg STS (block spi (exec (SPI_ClearStatusFlag spi flag) w))).
  unfold SPI_ClearStatusFlag. rewrite store_bit_block, get_set_reg_same.
  reflexivity.
Qed.

(** X13.  After SPI_ClearStatusFlag or SPI_ClearIntFlag, whatever flag they
    were called with, the status register has bit CRCEFLG clear; so when the
    CRC-error flag value is the mask of that bit, SPI_ReadStatusFlag for it
    returns RESET. *)
Theorem SPI_ClearStatusFlag_then_read (spi : SPI_Periph) (flag : Z) (w : World) :
  SPI_FLAG_CRCE = 2 ^ CRCEFLG_Pos ->
  result (SPI_ReadStatusFlag spi SPI_FLAG_CRCE)
         (exec (SPI_ClearStatusFlag spi flag) w) = RESET
  /\ result (SPI_ReadStatusFlag spi SPI_FLAG_CRCE)
            (exec (SPI_ClearIntFlag spi flag) w) = RESET.
Proof.
  intros Hflag. pose proof (CRCEFLG_range _ hdr_ok) as Hp.
  change (SPI_ClearIntFlag spi flag) with (SPI_ClearStatusFlag spi flag).
  assert (E : Z.land (reg_word (Z.clearbit (sts (block spi w)) CRCEFLG_Pos))
                     (2 ^ CRCEFLG_Pos) = 0).
  { apply Z.bits_inj'; intros i Hi.
    rewrite Z.land_spec, (reg_word_testbit hdr_ok), Z.clearbit_eqb,
      Z.pow2_bits_eqb, Z.bits_0 by lia.
    destruct (CRCEFLG_Pos =? i); cbn [negb]; rewrite ?andb_false_r;
      reflexivity. }
  rewrite SPI_ReadStatusFlag_value, SPI_ClearStatusFlag_sts, Hflag, E.
  split; reflexivity.
Qed.

(** X14.  Clearing the CRC-error flag does not disturb the other flags: for a
    flag mask that does not contain bit CRCEFLG, SPI_ReadStatusFlag returns
    after SPI_ClearStatusFlag what it returned before. *)
Theorem SPI_ClearStatusFlag_keeps_other_flags
    (spi : SPI_Periph) (flag other_flag : Z) (w : World) :
  world_ok w ->
  Z.testbit other_flag CRCEFLG_Pos = false ->
  result (SPI_ReadStatusFlag spi other_flag)
         (exec (SPI_ClearStatusFlag spi flag) w)
  = result (SPI_ReadStatusFlag spi other_flag) w.
Proof.
  intros Hw Hbit. pose proof (CRCEFLG_range _ hdr_ok) as Hp.
  assert (E : Z.land (reg_word (Z.clearbit (sts (block spi w)) CRCEFLG_Pos))
                     other_flag
              = Z.land (sts (block spi w)) other_flag).
  { rewrite reg_word_fits
      by (apply fits_clearbit; [lia | apply (Hw spi STS)]).
    apply Z.bits_inj'; intros i Hi.
    rewrite !Z.land_spec, Z.clearbit_eqb.
    destruct (Z.eqb_spec CRCEFLG_Pos i) as [<- | Hne]; cbn [negb].
    - rewrite Hbit, !andb_false_r. reflexivity.
    - rewrite andb_true_r. reflexivity. }
  rewrite !SPI_ReadStatusFlag_value, SPI_ClearStatusFlag_sts, E. reflexivity.
Qed.

(** ** Interrupt enables *)

Lemma SPI_EnableInterrupt_rmw (spi : SPI_Periph) (interrupt : Z) :
  SPI_EnableInterrupt spi interrupt
  = rmw spi CTRL2 (fun v => Z.lor v (Z.shiftr interrupt 8)).
Proof. reflexivity. Qed.

Lemma SPI_DisableInterrupt_rmw (spi : SPI_Periph) (interrupt : Z) :
  SPI_DisableInterrupt spi interrupt
  = rmw spi CTRL2 (fun v => Z.land v (Z.lnot (Z.shiftr interrupt 8))).
Proof. reflexivity. Qed.

(** X15.  An interrupt that was just disabled never reads as pending:
    SPI_ReadIntFlag after SPI_DisableInterrupt for the same value returns
    RESET, whatever the status register holds. *)
Theorem SPI_DisableInterrupt_then_ReadIntFlag
    (spi : SPI_Periph) (interrupt : Z) (w : World) :
  world_ok w ->
  result (SPI_ReadIntFlag spi interrupt)
         (exec (SPI_DisableInterrupt spi interrupt) w) = RESET.
Proof.
  intros Hw. rewrite SPI_DisableInterrupt_rmw.
  rewrite SPI_ReadIntFlag_value by (apply (rmw_world_ok hdr_ok); exact Hw).
  rewrite rmw_block.
  replace (SPI_Periph_eqb spi spi) with true by (destruct spi; reflexivity).
  change (ctrl2 (set_reg CTRL2 ?v ?b)) with v.
  cbn [get_reg].
  assert (E : Z.land (reg_word (Z.land (ctrl2 (block spi w))
                                      (Z.lnot (Z.shiftr interrupt 8))))
                     (Z.shiftr interrupt 8) = 0).
  { apply Z.bits_inj'; intros i Hi.
    rewrite Z.land_spec, (reg_word_testbit hdr_ok), Z.land_spec, Z.lnot_spec,
      Z.bits_0 by lia.
    destruct (Z.testbit (Z.shiftr interrupt 8) i); cbn [negb];
      rewrite ?andb_false_r; reflexivity. }
  destruct (block spi w) as [c1 c2 s d cp rx tx]; cbn [set_reg ctrl2 sts] in *.
  rewrite E. reflexivity.
Qed.

(** X16.  An interrupt that was just enabled is pending exactly when its
    status bits are raised: for a value whose enable mask (the value shifted
    right by 8) is a non-zero register word, SPI_ReadIntFlag after
    SPI_EnableInterrupt returns SET iff the status register has a bit of the
    value raised. *)
Theorem SPI_EnableInterrupt_then_ReadIntFlag
    (spi : SPI_Periph) (interrupt : Z) (w : World) :
  world_ok w ->
  fits reg_bits (Z.shiftr interrupt 8) ->
  Z.shiftr interrupt 8 <> 0 ->
  (result (SPI_ReadIntFlag spi interrupt)
          (exec (SPI_EnableInterrupt spi interrupt) w) = SET
   <-> Z.land (sts (block spi w)) interrupt <> 0).
Proof.
  intros Hw Hfit Hnz. rewrite SPI_EnableInterrupt_rmw.
  rewrite SPI_ReadIntFlag_value by (apply (rmw_world_ok hdr_ok); exact Hw).
  rewrite rmw_block.
  replace (SPI_Periph_eqb spi spi) with true by (destruct spi; reflexivity).
  cbn [get_reg].
  assert (E : Z.land (reg_word (Z.lor (ctrl2 (block spi w))
                                     (Z.shiftr interrupt 8)))
                     (Z.shiftr interrupt 8) = Z.shiftr interrupt 8).
  { apply Z.bits_inj'; intros i Hi.
    rewrite Z.land_spec, (reg_word_testbit hdr_ok), Z.lor_spec.
    destruct (Z.ltb_spec i reg_bits) as [Hlt | Hge].
    - destruct (Z.testbit (ctrl2 (block spi w)) i),
        (Z.testbit (Z.shiftr interrupt 8) i); reflexivity.
    - rewrite (fits_high_bits reg_bits (Z.shiftr interrupt 8) i);
        [reflexivity | apply (reg_bits_nonneg hdr_ok) | exact Hfit | exact Hge]. }
  destruct (block spi w) as [c1 c2 s d cp rx tx]; cbn [set_reg ctrl2 sts] in *.
  rewrite E.
  destruct (Z.eqb_spec (Z.shiftr interrupt 8) 0) as [Hz | _];
    [contradiction |].
  destruct (Z.eqb_spec (Z.land s interrupt) 0) as [Hs | Hs]; cbn [negb andb];
    unfold SET, RESET; split; intros H; try congruence; try discriminate.
Qed.

Lemma enable_mask_identities (v m : Z) :
  reg_word (Z.land (reg_word (Z.lor v m)) (Z.lnot m))
  = reg_word (Z.land v (Z.lnot m))
  /\ reg_word (Z.lor (reg_word (Z.land v (Z.lnot m))) m) = reg_word (Z.lor v m)
  /\ reg_word (Z.lor (reg_word (Z.lor v m)) m) = reg_word (Z.lor v m).
Proof.
  repeat split; apply Z.bits_inj'; intros i Hi;
    rewrite ?(reg_word_testbit hdr_ok), ?Z.lor_spec, ?Z.land_spec,
      ?(reg_word_testbit hdr_ok), ?Z.lor_spec, ?Z.land_spec, ?Z.lnot_spec
      by exact Hi;
    destruct (i <? reg_bits), (Z.testbit v i), (Z.testbit m i); reflexivity.
Qed.

(** X17.  Of SPI_EnableInterrupt and SPI_DisableInterrupt for one value the
    last call decides, and enabling twice is enabling once; enabling two
    interrupts gives the same registers in either order. *)
Theorem SPI_Interrupt_enable_order
    (spi : SPI_Periph) (interrupt interrupt' : Z) (w : World) :
  same_registers
    (exec (SPI_DisableInterrupt spi interrupt)
          (exec (SPI_EnableInterrupt spi interrupt) w))
    (exec (SPI_DisableInterrupt spi interrupt) w)
  /\ same_registers
       (exec (SPI_EnableInterrupt spi interrupt)
             (exec (SPI_DisableInterrupt spi interrupt) w))
       (exec (SPI_EnableInterrupt spi interrupt) w)
  /\ same_registers
       (exec (SPI_EnableInterrupt spi interrupt)
             (exec (SPI_EnableInterrupt spi interrupt) w))
       (exec (SPI_EnableInterrupt spi interrupt) w)
  /\ same_registers
       (exec (SPI_EnableInterrupt spi interrupt')
             (exec (SPI_EnableInterrupt spi interrupt) w))
       (exec (SPI_EnableInterrupt spi interrupt)
             (exec (SPI_EnableInterrupt spi interrupt') w)).
Proof.
  rewrite !SPI_EnableInterrupt_rmw, !SPI_DisableInterrupt_rmw.
  split; [| split; [| split]].
  - apply rmw_rmw_same; intros v.
    apply (enable_mask_identities v (Z.shiftr interrupt 8)).
  - apply rmw_rmw_same; intros v.
    apply (enable_mask_identities v (Z.shiftr interrupt 8)).
  - apply rmw_rmw_same; intros v.
    apply (enable_mask_identities v (Z.shiftr interrupt 8)).
  - apply rmw_rmw_commute; intros v.
    apply Z.bits_inj'; intros i Hi.
    rewrite !(reg_word_testbit hdr_ok), !Z.lor_spec,
      !(reg_word_testbit hdr_ok), !Z.lor_spec.
    destruct (i <? reg_bits), (Z.testbit v i),
      (Z.testbit (Z.shiftr interrupt 8) i),
      (Z.testbit (Z.shiftr interrupt' 8) i); reflexivity.
Qed.

End FlagFacts.

Section FrameFormatFacts.

Context {hdr : SPI_Header} {more : SPI_Header_More}.
Hypothesis hdr_ok : header_ok hdr.
Hypothesis more_ok : header_more_ok hdr more.

(** ** Frame length *)

Lemma SPI_ConfigDataSize_rmw (spi : SPI_Periph) (length : Z) :
  SPI_ConfigDataSize spi length
  = bind (rmw spi CTRL1 (assign_bit DFLSEL_Pos BIT_RESET))
         (fun _ => rmw spi CTRL1 (fun v => Z.lor v length)).
Proof. reflexivity. Qed.

Lemma SPI_ConfigDataSize_block
    (spi spi' : SPI_Periph) (length : Z) (w : World) :
  block spi' (exec (SPI_ConfigDataSize spi length) w) =
  if SPI_Periph_eqb spi' spi
  then set_reg CTRL1
         (reg_word (Z.lor (reg_word (Z.clearbit (ctrl1 (block spi w))
                                                DFLSEL_Pos)) length))
         (block spi w)
  else block spi' w.
Proof.
  rewrite SPI_ConfigDataSize_rmw, exec_bind, !rmw_block.
  destruct (SPI_Periph_eqb spi' spi) eqn:E; [| reflexivity].
  replace (SPI_Periph_eqb spi spi) with true by (destruct spi; reflexivity).
  rewrite get_set_reg_same, set_reg_set_reg. reflexivity.
Qed.

(** X18.  SPI_ConfigDataSize leaves bit DFLSEL of control-1 equal to that bit
    of the length argument; every other bit of control-1 is its old value
    ORed with the corresponding bit of the argument, so no other bit is ever
    cleared.  No other register changes. *)
Theorem SPI_ConfigDataSize_bits (spi : SPI_Periph) (length : Z) (w : World) :
  let w' := exec (SPI_ConfigDataSize spi length) w in
  (forall n, 0 <= n < reg_bits ->
     Z.testbit (ctrl1 (block spi w')) n =
     if DFLSEL_Pos =? n then Z.testbit length n
     else Z.testbit (ctrl1 (block spi w)) n || Z.testbit length n)
  /\ (forall n, 0 <= n < reg_bits -> n <> DFLSEL_Pos ->
        Z.testbit (ctrl1 (block spi w)) n = true ->
        Z.testbit (ctrl1 (block spi w')) n = true)
  /\ frame spi [CTRL1] w w'.
Proof.
  intros w'.
  assert (Hbits : forall n, 0 <= n < reg_bits ->
            Z.testbit (ctrl1 (block spi w')) n =
            if DFLSEL_Pos =? n then Z.testbit length n
            else Z.testbit (ctrl1 (block spi w)) n || Z.testbit length n).
  { intros n Hn. subst w'. rewrite SPI_ConfigDataSize_block.
    replace (SPI_Periph_eqb spi spi) with true by (destruct spi; reflexivity).
    change (ctrl1 (set_reg CTRL1 ?v ?b)) with v.
    destruct (block spi w) as [c1 c2 s d cp rx tx]; cbn [set_reg ctrl1].
    rewrite (reg_word_testbit hdr_ok), Z.lor_spec, (reg_word_testbit hdr_ok),
      Z.clearbit_eqb.
    destruct (Z.ltb_spec n reg_bits); [| lia].
    destruct (DFLSEL_Pos =? n), (Z.testbit c1 n); reflexivity. }
  split; [exact Hbits |]. split.
  - intros n Hn Hne Hold. rewrite Hbits by exact Hn.
    destruct (Z.eqb_spec DFLSEL_Pos n); [congruence |].
    rewrite Hold. reflexivity.
  - split.
    + intros r Hr. subst w'. rewrite SPI_ConfigDataSize_block.
      replace (SPI_Periph_eqb spi spi) with true by (destruct spi; reflexivity).
      apply get_set_reg_other. intros ->. apply Hr. left; reflexivity.
    + subst w'. rewrite SPI_ConfigDataSize_block.
      destruct spi; reflexivity.
Qed.

(** X19.  Called with 0, SPI_ConfigDataSize clears the DFLSEL bit and changes
    nothing else; called with the mask of the DFLSEL bit it sets that bit and
    changes nothing else; of two such calls the last decides. *)
Theorem SPI_ConfigDataSize_select (spi : SPI_Periph) (w : World) :
  world_ok w ->
  let len16 := 2 ^ DFLSEL_Pos in
  bit_assigned spi CTRL1 DFLSEL_Pos false w (exec (SPI_ConfigDataSize spi 0) w)
  /\ bit_assigned spi CTRL1 DFLSEL_Pos true w
                  (exec (SPI_ConfigDataSize spi len16) w)
  /\ same_registers
       (exec (SPI_ConfigDataSize spi 0) (exec (SPI_ConfigDataSize spi len16) w))
       (exec (SPI_ConfigDataSize spi 0) w)
  /\ same_registers
       (exec (SPI_ConfigDataSize spi len16) (exec (SPI_ConfigDataSize spi 0) w))
       (exec (SPI_ConfigDataSize spi len16) w).
Proof.
  intros Hw len16.
  pose proof (DFLSEL_range _ _ more_ok) as Hp.
  assert (Hframe : forall l, frame spi [CTRL1] w
                               (exec (SPI_ConfigDataSize spi l) w)).
  { intros l. split.
    - intros r Hr. rewrite SPI_ConfigDataSize_block.
      replace (SPI_Periph_eqb spi spi) with true by (destruct spi; reflexivity).
      apply get_set_reg_other. intros ->. apply Hr. left; reflexivity.
    - rewrite SPI_ConfigDataSize_block. destruct spi; reflexivity. }
  assert (Hval : forall l c n, fits reg_bits c ->
            Z.testbit (reg_word (Z.lor (reg_word (Z.clearbit c DFLSEL_Pos)) l)) n
            = (n <? reg_bits)
              && ((Z.testbit c n && negb (DFLSEL_Pos =? n)) || Z.testbit l n)).
  { intros l c n Hc.
    rewrite (reg_word_testbit hdr_ok), Z.lor_spec, (reg_word_testbit hdr_ok),
      Z.clearbit_eqb.
    destruct (n <? reg_bits); reflexivity. }
  assert (Hhigh : forall c n, fits reg_bits c -> reg_bits <= n ->
            Z.testbit c n = false).
  { intros c n Hc Hn.
    apply (fits_high_bits reg_bits); [apply (reg_bits_nonneg hdr_ok) | | ];
      assumption. }
  assert (Hcomp : forall l l' c,
            reg_word (Z.lor (reg_word (Z.clearbit
              (reg_word (Z.lor (reg_word (Z.clearbit c DFLSEL_Pos)) l))
              DFLSEL_Pos)) l')
            = reg_word (Z.lor (reg_word (Z.clearbit c DFLSEL_Pos))
                              (Z.lor (Z.clearbit l DFLSEL_Pos) l'))).
  { intros l l' c; apply Z.bits_inj'; intros i Hi.
    rewrite !(reg_word_testbit hdr_ok), !Z.lor_spec,
      !(reg_word_testbit hdr_ok), !Z.clearbit_eqb,
      !(reg_word_testbit hdr_ok), !Z.lor_spec,
      !(reg_word_testbit hdr_ok), !Z.clearbit_eqb.
    destruct (i <? reg_bits), (Z.testbit c i), (DFLSEL_Pos =? i),
      (Z.testbit l i), (Z.testbit l' i); reflexivity. }
  assert (Hlast : forall l l',
            Z.lor (Z.clearbit l DFLSEL_Pos) l' = l' ->
            same_registers
              (exec (SPI_ConfigDataSize spi l')
                    (exec (SPI_ConfigDataSize spi l) w))
              (exec (SPI_ConfigDataSize spi l') w)).
  { intros l l' Hl; apply same_registers_blocks; intros q.
    rewrite !SPI_ConfigDataSize_block.
    destruct (SPI_Periph_eqb q spi) eqn:E; [| reflexivity].
    replace (SPI_Periph_eqb spi spi) with true by (destruct spi; reflexivity).
    destruct (block spi w) as [c1 c2 s d cp rx tx]; cbn [set_reg ctrl1].
    rewrite Hcomp, Hl. reflexivity. }
  split; [| split; [| split]].
  - split; [| apply Hframe]. intros n.
    rewrite SPI_ConfigDataSize_block.
    replace (SPI_Periph_eqb spi spi) with true by (destruct spi; reflexivity).
    rewrite get_set_reg_same. cbn [get_reg].
    rewrite Hval by apply (Hw spi CTRL1). rewrite Z.bits_0, orb_false_r.
    destruct (Z.ltb_spec n reg_bits) as [Hlt | Hge];
      destruct (Z.eqb_spec DFLSEL_Pos n) as [He | He]; cbn [negb andb];
      rewrite ?andb_false_r, ?andb_true_r; try reflexivity.
    symmetry; apply Hhigh; [apply (Hw spi CTRL1) | exact Hge].
  - split; [| apply Hframe]. intros n.
    rewrite SPI_ConfigDataSize_block.
    replace (SPI_Periph_eqb spi spi) with true by (destruct spi; reflexivity).
    rewrite get_set_reg_same. cbn [get_reg].
    rewrite Hval by apply (Hw spi CTRL1). subst len16.
    rewrite Z.pow2_bits_eqb by lia.
    destruct (Z.ltb_spec n reg_bits) as [Hlt | Hge];
      destruct (Z.eqb_spec DFLSEL_Pos n) as [He | He]; cbn [negb andb];
      rewrite ?andb_false_r, ?andb_true_r, ?orb_false_r, ?orb_true_r;
      try reflexivity; try lia.
    symmetry; apply Hhigh; [apply (Hw spi CTRL1) | exact Hge].
  - apply Hlast. subst len16. apply Z.bits_inj'; intros i Hi.
    rewrite Z.lor_spec, Z.clearbit_eqb, Z.pow2_bits_eqb, Z.bits_0 by lia.
    destruct (DFLSEL_Pos =? i); reflexivity.
  - apply Hlast. subst len16. apply Z.bits_inj'; intros i Hi.
    rewrite Z.lor_spec, Z.clearbit_eqb, Z.bits_0. reflexivity.
Qed.

(** ** Line direction *)

(** X20.  SPI_ConfigBiDirectionalLine takes the receive branch for every
    direction other than SPI_DIRECTION_TX: control-1 is ANDed with
    SPI_DIRECTION_RX, so no bit of it is ever set.  For SPI_DIRECTION_TX
    control-1 is ORed with it, so no bit of the register is cleared.  In both
    cases no other register changes. *)
Theorem SPI_ConfigBiDirectionalLine_branches
    (spi : SPI_Periph) (direction : Z) (w : World) :
  let w' := exec (SPI_ConfigBiDirectionalLine spi direction) w in
  (direction <> SPI_DIRECTION_TX ->
     ctrl1 (block spi w')
     = reg_word (Z.land (ctrl1 (block spi w)) SPI_DIRECTION_RX)
     /\ forall n, Z.testbit (ctrl1 (block spi w')) n = true ->
                  Z.testbit (ctrl1 (block spi w)) n = true)
  /\ (direction = SPI_DIRECTION_TX ->
        ctrl1 (block spi w')
        = reg_word (Z.lor (ctrl1 (block spi w)) SPI_DIRECTION_TX)
        /\ forall n, 0 <= n < reg_bits ->
                     Z.testbit (ctrl1 (block spi w)) n = true ->
                     Z.testbit (ctrl1 (block spi w')) n = true)
  /\ frame spi [CTRL1] w w'.
Proof.
  intros w'.
  assert (Hrx : direction <> SPI_DIRECTION_TX ->
                SPI_ConfigBiDirectionalLine spi direction
                = rmw spi CTRL1 (fun v => Z.land v SPI_DIRECTION_RX)).
  { intros Hne; unfold SPI_ConfigBiDirectionalLine.
    destruct (Z.eqb_spec direction SPI_DIRECTION_TX);
      [contradiction | reflexivity]. }
  assert (Htx : direction = SPI_DIRECTION_TX ->
                SPI_ConfigBiDirectionalLine spi direction
                = rmw spi CTRL1 (fun v => Z.lor v SPI_DIRECTION_TX)).
  { intros ->; unfold SPI_ConfigBiDirectionalLine.
    rewrite Z.eqb_refl; reflexivity. }
  assert (Hself : SPI_Periph_eqb spi spi = true) by (destruct spi; reflexivity).
  split; [| split].
  - intros Hne. subst w'. rewrite (Hrx Hne).
    assert (E : ctrl1 (block spi (exec
                  (rmw spi CTRL1 (fun v => Z.land v SPI_DIRECTION_RX)) w))
                = reg_word (Z.land (ctrl1 (block spi w)) SPI_DIRECTION_RX)).
    { rewrite rmw_block, Hself. destruct (block spi w); reflexivity. }
    split; [exact E |]. intros n. rewrite E.
    destruct (Z_lt_le_dec n 0) as [Hneg | Hpos].
    + rewrite Z.testbit_neg_r by exact Hneg. discriminate.
    + rewrite (reg_word_testbit hdr_ok), Z.land_spec.
      destruct (n <? reg_bits), (Z.testbit (ctrl1 (block spi w)) n);
        cbn [andb]; try discriminate; reflexivity.
  - intros He. subst w'. rewrite (Htx He).
    assert (E : ctrl1 (block spi (exec
                  (rmw spi CTRL1 (fun v => Z.lor v SPI_DIRECTION_TX)) w))
                = reg_word (Z.lor (ctrl1 (block spi w)) SPI_DIRECTION_TX)).
    { rewrite rmw_block, Hself. destruct (block spi w); reflexivity. }
    split; [exact E |]. intros n Hn Hold. rewrite E.
    rewrite (reg_word_testbit hdr_ok), Z.lor_spec, Hold.
    destruct (Z.ltb_spec n reg_bits); [reflexivity | lia].
  - subst w'.
    destruct (Z.eq_dec direction SPI_DIRECTION_TX) as [He | Hne];
      [rewrite (Htx He) | rewrite (Hrx Hne)]; (split;
      [ intros r Hr; rewrite rmw_block, Hself;
        apply get_set_reg_other; intros ->; apply Hr; left; reflexivity
      | rewrite rmw_block; destruct spi; reflexivity ]).
Qed.

(** X21.  When the two direction encodings are complementary (no bit of
    SPI_DIRECTION_TX is in the mask SPI_DIRECTION_RX), the last direction
    selected is the one in control-1: after selecting transmit then any other
    direction the transmit bits are clear, and after selecting any other
    direction then transmit they are set. *)
Theorem SPI_ConfigBiDirectionalLine_last_wins
    (spi : SPI_Periph) (direction : Z) (w : World) :
  direction <> SPI_DIRECTION_TX ->
  Z.land SPI_DIRECTION_TX SPI_DIRECTION_RX = 0 ->
  fits reg_bits SPI_DIRECTION_TX ->
  Z.land (ctrl1 (block spi
            (exec (SPI_ConfigBiDirectionalLine spi direction)
               (exec (SPI_ConfigBiDirectionalLine spi SPI_DIRECTION_TX) w))))
         SPI_DIRECTION_TX = 0
  /\ Z.land (ctrl1 (block spi
               (exec (SPI_ConfigBiDirectionalLine spi SPI_DIRECTION_TX)
                  (exec (SPI_ConfigBiDirectionalLine spi direction) w))))
            SPI_DIRECTION_TX = SPI_DIRECTION_TX.
Proof.
  intros Hne Hcompl Hfit.
  assert (Hrx : SPI_ConfigBiDirectionalLine spi direction
                = rmw spi CTRL1 (fun v => Z.land v SPI_DIRECTION_RX)).
  { unfold SPI_ConfigBiDirectionalLine.
    destruct (Z.eqb_spec direction SPI_DIRECTION_TX);
      [contradiction | reflexivity]. }
  assert (Htx : SPI_ConfigBiDirectionalLine spi SPI_DIRECTION_TX
                = rmw spi CTRL1 (fun v => Z.lor v SPI_DIRECTION_TX)).
  { unfold SPI_ConfigBiDirectionalLine. rewrite Z.eqb_refl; reflexivity. }
  assert (Hself : SPI_Periph_eqb spi spi = true) by (destruct spi; reflexivity).
  assert (Hbit : forall i, 0 <= i ->
            Z.testbit SPI_DIRECTION_TX i && Z.testbit SPI_DIRECTION_RX i = false).
  { intros i Hi. rewrite <- Z.land_spec, Hcompl. apply Z.bits_0. }
  rewrite Hrx, Htx, !rmw_block, !Hself, !get_set_reg_same, !set_reg_set_reg.
  destruct (block spi w) as [c1 c2 s d cp rx tx]; cbn [set_reg ctrl1 get_reg].
  split; apply Z.bits_inj'; intros i Hi; specialize (Hbit i Hi).
  - rewrite Z.land_spec, (reg_word_testbit hdr_ok), Z.land_spec, Z.bits_0.
    destruct (Z.testbit SPI_DIRECTION_TX i), (Z.testbit SPI_DIRECTION_RX i);
      cbn [andb] in *; rewrite ?andb_false_r; try reflexivity; discriminate.
  - rewrite Z.land_spec, (reg_word_testbit hdr_ok), Z.lor_spec.
    destruct (Z.ltb_spec i reg_bits) as [Hlt | Hge].
    + destruct (Z.testbit SPI_DIRECTION_TX i); cbn [andb];
        rewrite ?orb_true_r, ?andb_false_r; reflexivity.
    + rewrite (fits_high_bits reg_bits SPI_DIRECTION_TX i);
        [reflexivity | apply (reg_bits_nonneg hdr_ok) | exact Hfit | exact Hge].
Qed.

End FrameFormatFacts.

Section DataPathFacts.

Context {hdr : SPI_Header} {more : SPI_Header_More}.
Hypothesis hdr_ok : header_ok hdr.

(** ** Data path *)

(** X22.  SPI_TxData truncates its argument to 16 bits: whatever integer is
    passed, the data register afterwards holds the argument modulo 2^16.  The
    call is a single write of the data register: it reads nothing (no flag is
    checked) and changes no other register. *)
Theorem SPI_TxData_spec (spi : SPI_Periph) (value : Z) (w : World) :
  let w' := exec (SPI_TxData spi value) w in
  data (block spi w') = value mod 2 ^ 16
  /\ fits 16 (data (block spi w'))
  /\ accesses (SPI_TxData spi value) w = [Wr spi DATA (value mod 2 ^ 16)]
  /\ frame spi [DATA] w w'.
Proof.
  intros w'.
  assert (Hfit : fits 16 (value mod 2 ^ 16)).
  { apply Z.mod_pos_bound; lia. }
  assert (E : reg_word (uint16_t value) = value mod 2 ^ 16).
  { apply reg_word_fits, (fits16_reg hdr_ok), Hfit. }
  assert (Hd : data (block spi w') = value mod 2 ^ 16).
  { subst w'; destruct spi, w as [b1 b2 t]; unfold SPI_TxData; run_driver;
      exact E. }
  split; [exact Hd |]. split; [rewrite Hd; exact Hfit |]. split.
  - unfold accesses, SPI_TxData; destruct spi, w as [b1 b2 t]; run_driver;
      rewrite E; reflexivity.
  - subst w'; unfold SPI_TxData; destruct spi, w as [b1 b2 t];
      (split; [| reflexivity]);
      intros r Hr; destruct r; try reflexivity; exfalso; apply Hr; simpl; auto.
Qed.

(** X23.  In the register file, what SPI_TxData wrote is what SPI_RxData
    reads back: the argument modulo 2^16, and so the argument itself when it
    is a 16-bit value. *)
Theorem SPI_TxData_RxData (spi : SPI_Periph) (value : Z) (w : World) :
  result (SPI_RxData spi) (exec (SPI_TxData spi value) w) = value mod 2 ^ 16
  /\ (fits 16 value ->
      result (SPI_RxData spi) (exec (SPI_TxData spi value) w) = value).
Proof.
  assert (Hfit : fits 16 (value mod 2 ^ 16)).
  { apply Z.mod_pos_bound; lia. }
  assert (E : reg_word (uint16_t value) = value mod 2 ^ 16).
  { apply reg_word_fits, (fits16_reg hdr_ok), Hfit. }
  assert (R : result (SPI_RxData spi) (exec (SPI_TxData spi value) w)
              = value mod 2 ^ 16).
  { unfold SPI_TxData, SPI_RxData; destruct spi, w as [b1 b2 t]; run_driver;
      rewrite E; apply uint16_t_fits, Hfit. }
  split; [exact R |].
  intros Hv. rewrite R. apply Z.mod_small. exact Hv.
Qed.

(** X24.  The four read-back functions SPI_RxData, SPI_ReadTxCRC,
    SPI_ReadRxCRC and SPI_ReadCRCPolynomial return a 16-bit value whatever the
    register holds, read one register once, and change no register. *)
Theorem SPI_read_back_functions (spi : SPI_Periph) (w : World) :
  (fits 16 (result (SPI_RxData spi) w)
   /\ same_registers w (exec (SPI_RxData spi) w)
   /\ accesses (SPI_RxData spi) w = [Rd spi DATA])
  /\ (fits 16 (result (SPI_ReadTxCRC spi) w)
      /\ same_registers w (exec (SPI_ReadTxCRC spi) w)
      /\ accesses (SPI_ReadTxCRC spi) w = [Rd spi TXCRC])
  /\ (fits 16 (result (SPI_ReadRxCRC spi) w)
      /\ same_registers w (exec (SPI_ReadRxCRC spi) w)
      /\ accesses (SPI_ReadRxCRC spi) w = [Rd spi RXCRC])
  /\ (fits 16 (result (SPI_ReadCRCPolynomial spi) w)
      /\ same_registers w (exec (SPI_ReadCRCPolynomial spi) w)
      /\ accesses (SPI_ReadCRCPolynomial spi) w = [Rd spi CRCPOLY]).
Proof.
  assert (H16 : forall v, fits 16 (uint16_t v)).
  { intros v; apply Z.mod_pos_bound; lia. }
  repeat split; try apply H16; destruct spi; reflexivity.
Qed.

(** X25.  SPI_Config makes five accesses and no other: it reads control-1 and
    writes back only the retained bits (so every configuration field is
    momentarily clear), reads control-1 again and writes the new fields, then
    writes the polynomial.  It reads neither the status nor the data
    register. *)
Theorem SPI_Config_accesses (spi : SPI_Periph) (D : SPI_Config_T) (w : World) :
  config_ok D ->
  let kept := Z.land (ctrl1 (block spi w)) 0x3040 in
  accesses (SPI_Config spi D) w =
  [Rd spi CTRL1; Wr spi CTRL1 kept;
   Rd spi CTRL1; Wr spi CTRL1 (Z.lor kept (pack D));
   Wr spi CRCPOLY (crcPolynomial D)].
Proof.
  intros HD kept.
  pose proof (pack_fits D HD) as Hpack.
  destruct HD as (Hd & _ & _ & _ & _ & _ & _ & _ & Hcrc).
  assert (Hkept : fits 16 kept).
  { apply fits_land_r; [lia | unfold fits; lia]. }
  assert (E1 : reg_word kept = kept).
  { apply reg_word_fits, (fits16_reg hdr_ok), Hkept. }
  assert (E2 : uint16_t (Z.lor (Z.lor (Z.lor (Z.lor (Z.lor (Z.lor (Z.lor
                 (uint32_t (direction D)) (mode D)) (length D)) (polarity D))
                 (phase D)) (nss D)) (baudrateDiv D)) (firstBit D)) = pack D).
  { rewrite (uint32_t_fits (direction D))
      by (apply (fits_mono 16); [lia | exact Hd]).
    apply uint16_t_fits, Hpack. }
  assert (E3 : reg_word (Z.lor kept (pack D)) = Z.lor kept (pack D)).
  { apply reg_word_fits, (fits16_reg hdr_ok), fits_lor; [lia | | ]; assumption. }
  assert (E4 : reg_word (crcPolynomial D) = crcPolynomial D).
  { apply reg_word_fits, (fits16_reg hdr_ok), Hcrc. }
  subst kept; unfold accesses, SPI_Config; destruct spi, w as [b1 b2 t];
    run_driver; cbn [block spi1 spi2] in E1, E3;
    rewrite E1, E2, E3, E4; reflexivity.
Qed.

End DataPathFacts.

(** ** Instances of the further properties at the concrete header *)

Lemma SPI_Enable_Disable_last_wins_witness :
  header_ok apm32s10x /\
  same_registers
    (exec (@SPI_Disable apm32s10x SPI1)
          (exec (@SPI_Enable apm32s10x SPI1) busy_world))
    (exec (@SPI_Disable apm32s10x SPI1) busy_world).
Proof.
  assert (Hh : header_ok apm32s10x) by vendor_header.
  split; [exact Hh |].
  exact (proj1 (@SPI_Enable_Disable_last_wins apm32s10x Hh SPI1 busy_world)).
Defined.

Lemma SPI_SoftwareNSS_spec_witness :
  header_ok apm32s10x /\ header_more_ok apm32s10x apm32s10x_more /\
  @world_ok apm32s10x busy_world /\
  bit_assigned SPI2 CTRL1 8 true busy_world
    (exec (@SPI_SetSoftwareNSS apm32s10x apm32s10x_more SPI2) busy_world).
Proof.
  assert (Hh : header_ok apm32s10x) by vendor_header.
  assert (Hm : header_more_ok apm32s10x apm32s10x_more) by vendor_header.
  assert (Hw : @world_ok apm32s10x busy_world) by vendor_world.
  split; [exact Hh |]. split; [exact Hm |]. split; [exact Hw |].
  pose proof (@SPI_SoftwareNSS_spec apm32s10x apm32s10x_more Hh Hm
                SPI2 busy_world Hw) as H.
  cbv zeta in H. destruct H as (H & _). exact H.
Defined.

Lemma SPI_SSOutput_spec_witness :
  header_ok apm32s10x /\ header_more_ok apm32s10x apm32s10x_more /\
  @world_ok apm32s10x busy_world /\
  bit_assigned SPI1 CTRL2 2 false busy_world
    (exec (@SPI_DisableSSOutput apm32s10x apm32s10x_more SPI1) busy_world).
Proof.
  assert (Hh : header_ok apm32s10x) by vendor_header.
  assert (Hm : header_more_ok apm32s10x apm32s10x_more) by vendor_header.
  assert (Hw : @world_ok apm32s10x busy_world) by vendor_world.
  split; [exact Hh |]. split; [exact Hm |]. split; [exact Hw |].
  pose proof (@SPI_SSOutput_spec apm32s10x apm32s10x_more Hh Hm
                SPI1 busy_world Hw) as H.
  cbv zeta in H. destruct H as (_ & H & _). exact H.
Defined.

Lemma SPI_CRC_control_spec_witness :
  header_ok apm32s10x /\ header_more_ok apm32s10x apm32s10x_more /\
  @world_ok apm32s10x busy_world /\
  bit_assigned SPI2 CTRL1 12 true busy_world
    (exec (@SPI_TxCRC apm32s10x apm32s10x_more SPI2) busy_world).
Proof.
  assert (Hh : header_ok apm32s10x) by vendor_header.
  assert (Hm : header_more_ok apm32s10x apm32s10x_more) by vendor_header.
  assert (Hw : @world_ok apm32s10x busy_world) by vendor_world.
  split; [exact Hh |]. split; [exact Hm |]. split; [exact Hw |].
  pose proof (@SPI_CRC_control_spec apm32s10x apm32s10x_more Hh Hm
                SPI2 busy_world Hw) as H.
  cbv zeta in H. destruct H as (_ & _ & H & _). exact H.
Defined.

Lemma SPI_CTRL1_operations_commute_witness :
  header_ok apm32s10x /\ header_more_ok apm32s10x apm32s10x_more /\
  same_registers
    (exec (@SPI_EnableCRC apm32s10x apm32s10x_more SPI2)
          (exec (@SPI_Enable apm32s10x SPI2) busy_world))
    (exec (@SPI_Enable apm32s10x SPI2)
          (exec (@SPI_EnableCRC apm32s10x apm32s10x_more SPI2) busy_world)).
Proof.
  assert (Hh : header_ok apm32s10x) by vendor_header.
  assert (Hm : header_more_ok apm32s10x apm32s10x_more) by vendor_header.
  split; [exact Hh |]. split; [exact Hm |].
  exact (proj1 (@SPI_CTRL1_operations_commute apm32s10x apm32s10x_more Hh Hm
                  SPI2 busy_world)).
Defined.


Lemma SPI_Config_idempotent_witness :
  header_ok apm32s10x /\ config_ok master_descriptor /\
  same_registers
    (exec (@SPI_Config apm32s10x SPI1 master_descriptor)
          (exec (@SPI_Config apm32s10x SPI1 master_descriptor) busy_world))
    (exec (@SPI_Config apm32s10x SPI1 master_descriptor) busy_world).
Proof.
  assert (Hh : header_ok apm32s10x) by vendor_header.
  assert (HD : config_ok master_descriptor)
    by (unfold config_ok, fits; cbn; lia).
  split; [exact Hh |]. split; [exact HD |].
  exact (@SPI_Config_idempotent apm32s10x Hh SPI1 master_descriptor
           busy_world HD).
Defined.

Lemma SPI_Config_last_wins_witness :
  header_ok apm32s10x /\ config_ok master_descriptor /\
  config_ok (@default_descriptor apm32s10x) /\
  Z.land (pack master_descriptor) 0x3040 = 0 /\
  same_registers
    (exec (@SPI_Config apm32s10x SPI1 (@default_descriptor apm32s10x))
          (exec (@SPI_Config apm32s10x SPI1 master_descriptor) busy_world))
    (exec (@SPI_Config apm32s10x SPI1 (@default_descriptor apm32s10x))
          busy_world).
Proof.
  assert (Hh : header_ok apm32s10x) by vendor_header.
  assert (H1 : config_ok master_descriptor)
    by (unfold config_ok, fits; cbn; lia).
  assert (H2 : config_ok (@default_descriptor apm32s10x))
    by (unfold config_ok, fits; cbn; lia).
  assert (Hdis : Z.land (pack master_descriptor) 0x3040 = 0) by reflexivity.
  split; [exact Hh |]. split; [exact H1 |]. split; [exact H2 |].
  split; [exact Hdis |].
  exact (@SPI_Config_last_wins apm32s10x Hh SPI1 master_descriptor
           (@default_descriptor apm32s10x) busy_world H1 H2 Hdis).
Defined.

Lemma SPI_Config_retained_bits_witness :
  header_ok apm32s10x /\ config_ok master_descriptor /\
  Z.testbit (ctrl1 (block SPI2
     (exec (@SPI_Config apm32s10x SPI2 master_descriptor)
           (exec (@SPI_Enable apm32s10x SPI2) busy_world)))) 6 = true.
Proof.
  assert (Hh : header_ok apm32s10x) by vendor_header.
  assert (HD : config_ok master_descriptor)
    by (unfold config_ok, fits; cbn; lia).
  split; [exact Hh |]. split; [exact HD |].
  pose proof (@SPI_Config_retained_bits apm32s10x Hh SPI2 master_descriptor
                busy_world HD) as H.
  cbv zeta in H. destruct H as (_ & _ & H). apply H. reflexivity.
Defined.

Lemma SPI_Config_ReadCRCPolynomial_witness :
  header_ok apm32s10x /\ config_ok master_descriptor /\
  @CRCPOLY_Pos apm32s10x_more = 0 /\
  fits (@CRCPOLY_Len apm32s10x_more) (crcPolynomial master_descriptor) /\
  result (@SPI_ReadCRCPolynomial apm32s10x_more SPI2)
         (exec (@SPI_Config apm32s10x SPI2 master_descriptor) busy_world)
  = 0x1021.
Proof.
  assert (Hh : header_ok apm32s10x) by vendor_header.
  assert (HD : config_ok master_descriptor)
    by (unfold config_ok, fits; cbn; lia).
  assert (Hpos : @CRCPOLY_Pos apm32s10x_more = 0) by reflexivity.
  assert (Hlen : fits (@CRCPOLY_Len apm32s10x_more)
                      (crcPolynomial master_descriptor))
    by (unfold fits; cbn; lia).
  split; [exact Hh |]. split; [exact HD |]. split; [exact Hpos |].
  split; [exact Hlen |].
  exact (@SPI_Config_ReadCRCPolynomial apm32s10x apm32s10x_more Hh SPI2
           master_descriptor busy_world HD Hpos Hlen).
Defined.

Lemma SPI_ReadIntFlag_implies_ReadStatusFlag_witness :
  header_ok apm32s10x /\ @world_ok apm32s10x busy_world /\
  result (SPI_ReadIntFlag SPI1 0x2040) busy_world = SET /\
  result (SPI_ReadStatusFlag SPI1 0x2040) busy_world = SET.
Proof.
  assert (Hh : header_ok apm32s10x) by vendor_header.
  assert (Hw : @world_ok apm32s10x busy_world) by vendor_world.
  assert (Hint : result (SPI_ReadIntFlag SPI1 0x2040) busy_world = SET)
    by reflexivity.
  split; [exact Hh |]. split; [exact Hw |]. split; [exact Hint |].
  exact (@SPI_ReadIntFlag_implies_ReadStatusFlag apm32s10x Hh SPI1 0x2040
           busy_world Hw Hint).
Defined.

Lemma SPI_ClearStatusFlag_then_read_witness :
  header_ok apm32s10x /\
  @SPI_FLAG_CRCE apm32s10x = 2 ^ @CRCEFLG_Pos apm32s10x /\
  result (SPI_ReadStatusFlag SPI1 0x0010)
         (exec (@SPI_ClearStatusFlag apm32s10x SPI1 0x0040) busy_world)
  = RESET.
Proof.
  assert (Hh : header_ok apm32s10x) by vendor_header.
  assert (Hf : @SPI_FLAG_CRCE apm32s10x = 2 ^ @CRCEFLG_Pos apm32s10x)
    by reflexivity.
  split; [exact Hh |]. split; [exact Hf |].
  exact (proj1 (@SPI_ClearStatusFlag_then_read apm32s10x Hh SPI1 0x0040
                  busy_world Hf)).
Defined.

Lemma SPI_ClearStatusFlag_keeps_other_flags_witness :
  header_ok apm32s10x /\ @world_ok apm32s10x busy_world /\
  Z.testbit 0x0040 (@CRCEFLG_Pos apm32s10x) = false /\
  result (SPI_ReadStatusFlag SPI1 0x0040)
         (exec (@SPI_ClearStatusFlag apm32s10x SPI1 0x0010) busy_world)
  = result (SPI_ReadStatusFlag SPI1 0x0040) busy_world.
Proof.
  assert (Hh : header_ok apm32s10x) by vendor_header.
  assert (Hw : @world_ok apm32s10x busy_world) by vendor_world.
  assert (Hb : Z.testbit 0x0040 (@CRCEFLG_Pos apm32s10x) = false)
    by reflexivity.
  split; [exact Hh |]. split; [exact Hw |]. split; [exact Hb |].
  exact (@SPI_ClearStatusFlag_keeps_other_flags apm32s10x Hh SPI1 0x0010
           0x0040 busy_world Hw Hb).
Defined.

Lemma SPI_DisableInterrupt_then_ReadIntFlag_witness :
  header_ok apm32s10x /\ @world_ok apm32s10x busy_world /\
  result (SPI_ReadIntFlag SPI1 0x8002)
         (exec (@SPI_DisableInterrupt apm32s10x SPI1 0x8002) busy_world)
  = RESET.
Proof.
  assert (Hh : header_ok apm32s10x) by vendor_header.
  assert (Hw : @world_ok apm32s10x busy_world) by vendor_world.
  split; [exact Hh |]. split; [exact Hw |].
  exact (@SPI_DisableInterrupt_then_ReadIntFlag apm32s10x Hh SPI1 0x8002
           busy_world Hw).
Defined.

Lemma SPI_EnableInterrupt_then_ReadIntFlag_witness :
  header_ok apm32s10x /\ @world_ok apm32s10x busy_world /\
  fits (@reg_bits apm32s10x) (Z.shiftr 0x8002 8) /\ Z.shiftr 0x8002 8 <> 0 /\
  result (SPI_ReadIntFlag SPI2 0x8002)
         (exec (@SPI_EnableInterrupt apm32s10x SPI2 0x8002) busy_world) = SET.
Proof.
  assert (Hh : header_ok apm32s10x) by vendor_header.
  assert (Hw : @world_ok apm32s10x busy_world) by vendor_world.
  assert (Hf : fits (@reg_bits apm32s10x) (Z.shiftr 0x8002 8))
    by (unfold fits; cbn; lia).
  assert (Hn : Z.shiftr 0x8002 8 <> 0) by (cbn; lia).
  split; [exact Hh |]. split; [exact Hw |]. split; [exact Hf |].
  split; [exact Hn |].
  apply (@SPI_EnableInterrupt_then_ReadIntFlag apm32s10x Hh SPI2 0x8002
           busy_world Hw Hf Hn).
  cbn; lia.
Defined.

Lemma SPI_Interrupt_enable_order_witness :
  header_ok apm32s10x /\
  same_registers
    (exec (@SPI_DisableInterrupt apm32s10x SPI2 0x4001)
          (exec (@SPI_EnableInterrupt apm32s10x SPI2 0x4001) busy_world))
    (exec (@SPI_DisableInterrupt apm32s10x SPI2 0x4001) busy_world).
Proof.
  assert (Hh : header_ok apm32s10x) by vendor_header.
  split; [exact Hh |].
  exact (proj1 (@SPI_Interrupt_enable_order apm32s10x Hh SPI2 0x4001 0x8002
                  busy_world)).
Defined.

Lemma SPI_ConfigDataSize_bits_witness :
  header_ok apm32s10x /\
  Z.testbit (ctrl1 (block SPI2
     (exec (@SPI_ConfigDataSize apm32s10x apm32s10x_more SPI2 0x0800)
           busy_world))) 11 = true.
Proof.
  assert (Hh : header_ok apm32s10x) by vendor_header.
  split; [exact Hh |].
  pose proof (@SPI_ConfigDataSize_bits apm32s10x apm32s10x_more Hh SPI2 0x0800
                busy_world) as H.
  cbv zeta in H. destruct H as (H & _).
  rewrite (H 11) by (cbn; lia). reflexivity.
Defined.

Lemma SPI_ConfigDataSize_select_witness :
  header_ok apm32s10x /\ header_more_ok apm32s10x apm32s10x_more /\
  @world_ok apm32s10x busy_world /\
  bit_assigned SPI1 CTRL1 11 false busy_world
    (exec (@SPI_ConfigDataSize apm32s10x apm32s10x_more SPI1 0) busy_world).
Proof.
  assert (Hh : header_ok apm32s10x) by vendor_header.
  assert (Hm : header_more_ok apm32s10x apm32s10x_more) by vendor_header.
  assert (Hw : @world_ok apm32s10x busy_world) by vendor_world.
  split; [exact Hh |]. split; [exact Hm |]. split; [exact Hw |].
  pose proof (@SPI_ConfigDataSize_select apm32s10x apm32s10x_more Hh Hm
                SPI1 busy_world Hw) as H.
  cbv zeta in H. destruct H as (H & _). exact H.
Defined.

Lemma SPI_ConfigBiDirectionalLine_branches_witness :
  header_ok apm32s10x /\
  ctrl1 (block SPI1
    (exec (@SPI_ConfigBiDirectionalLine apm32s10x apm32s10x_more SPI1 7)
          busy_world)) = 0x3F7F.
Proof.
  assert (Hh : header_ok apm32s10x) by vendor_header.
  split; [exact Hh |].
  pose proof (@SPI_ConfigBiDirectionalLine_branches apm32s10x apm32s10x_more
                Hh SPI1 7 busy_world) as H.
  cbv zeta in H. destruct H as (H & _).
  destruct H as (H & _); [cbn; lia |].
  rewrite H. reflexivity.
Defined.

Lemma SPI_ConfigBiDirectionalLine_last_wins_witness :
  header_ok apm32s10x /\
  0xBFFF <> @SPI_DIRECTION_TX apm32s10x_more /\
  Z.land (@SPI_DIRECTION_TX apm32s10x_more)
         (@SPI_DIRECTION_RX apm32s10x_more) = 0 /\
  fits (@reg_bits apm32s10x) (@SPI_DIRECTION_TX apm32s10x_more) /\
  Z.land (ctrl1 (block SPI1
     (exec (@SPI_ConfigBiDirectionalLine apm32s10x apm32s10x_more SPI1 0xBFFF)
        (exec (@SPI_ConfigBiDirectionalLine apm32s10x apm32s10x_more SPI1
                 0x4000) busy_world)))) 0x4000 = 0.
Proof.
  assert (Hh : header_ok apm32s10x) by vendor_header.
  assert (Hne : 0xBFFF <> @SPI_DIRECTION_TX apm32s10x_more) by (cbn; lia).
  assert (Hc : Z.land (@SPI_DIRECTION_TX apm32s10x_more)
                      (@SPI_DIRECTION_RX apm32s10x_more) = 0) by reflexivity.
  assert (Hf : fits (@reg_bits apm32s10x) (@SPI_DIRECTION_TX apm32s10x_more))
    by (unfold fits; cbn; lia).
  split; [exact Hh |]. split; [exact Hne |]. split; [exact Hc |].
  split; [exact Hf |].
  exact (proj1 (@SPI_ConfigBiDirectionalLine_last_wins apm32s10x apm32s10x_more
                  Hh SPI1 0xBFFF busy_world Hne Hc Hf)).
Defined.

Lemma SPI_TxData_spec_witness :
  header_ok apm32s10x /\
  data (block SPI2 (exec (@SPI_TxData apm32s10x SPI2 0x1ABCD) busy_world))
  = 0xABCD.
Proof.
  assert (Hh : header_ok apm32s10x) by vendor_header.
  split; [exact Hh |].
  pose proof (@SPI_TxData_spec apm32s10x Hh SPI2 0x1ABCD busy_world) as H.
  cbv zeta in H. destruct H as (H & _).
  rewrite H. reflexivity.
Defined.

Lemma SPI_TxData_RxData_witness :
  header_ok apm32s10x /\
  result (SPI_RxData SPI2) (exec (@SPI_TxData apm32s10x SPI2 0xA5) busy_world)
  = 0xA5.
Proof.
  assert (Hh : header_ok apm32s10x) by vendor_header.
  split; [exact Hh |].
  apply (@SPI_TxData_RxData apm32s10x Hh SPI2 0xA5 busy_world).
  unfold fits; cbn; lia.
Defined.

Lemma SPI_Config_accesses_witness :
  header_ok apm32s10x /\ config_ok master_descriptor /\
  accesses (@SPI_Config apm32s10x SPI1 master_descriptor) busy_world =
  [Rd SPI1 CTRL1; Wr SPI1 CTRL1 0x3040;
   Rd SPI1 CTRL1; Wr SPI1 CTRL1 0x3BDF; Wr SPI1 CRCPOLY 0x1021].
Proof.
  assert (Hh : header_ok apm32s10x) by vendor_header.
  assert (HD : config_ok master_descriptor)
    by (unfold config_ok, fits; cbn; lia).
  split; [exact Hh |]. split; [exact HD |].
  exact (@SPI_Config_accesses apm32s10x Hh SPI1 master_descriptor busy_world HD).
Defined.
